(** * Document classifier, template repository and template engine

    A shallow embedding of the three services of the repository:
    - [DocumentParser]      (services/documentParser.js)
    - [TemplateRepository]  (services/templateRepository.js)
    - [TemplateEngine]      (services/templateEngine.js)

    JavaScript strings are sequences of UTF-16 code units; [length],
    [includes], [startsWith], [endsWith], [trim] and the regular
    expressions of the source (none carries the [u] flag) all work on
    code units, so a string is a [list N] here. *)

From Stdlib Require Import List NArith ZArith Bool Lia String Ascii.
Import ListNotations.

Local Open Scope string_scope.
Local Open Scope list_scope.

(** ** JavaScript strings *)

Module JsString.

Definition jschar := N.
Definition jsstring := list jschar.

(** Source literals are written as Rocq strings (UTF-8 bytes) and decoded
    to UTF-16 code units: one unit for a code point of the basic plane, a
    surrogate pair above it. *)
Definition cont (b : N) : N := N.land b 63.

Fixpoint utf16_of_utf8 (bs : list N) : jsstring :=
  match bs with
  | [] => []
  | b0 :: r0 =>
    if (b0 <? 128)%N then b0 :: utf16_of_utf8 r0
    else if (b0 <? 224)%N then
      match r0 with
      | b1 :: r1 =>
        N.lor (N.shiftl (N.land b0 31) 6) (cont b1) :: utf16_of_utf8 r1
      | [] => []
      end
    else if (b0 <? 240)%N then
      match r0 with
      | b1 :: b2 :: r2 =>
        N.lor (N.shiftl (N.land b0 15) 12)
              (N.lor (N.shiftl (cont b1) 6) (cont b2)) :: utf16_of_utf8 r2
      | _ => []
      end
    else
      match r0 with
      | b1 :: b2 :: b3 :: r3 =>
        let cp := N.lor (N.shiftl (N.land b0 7) 18)
                   (N.lor (N.shiftl (cont b1) 12)
                     (N.lor (N.shiftl (cont b2) 6) (cont b3))) in
        let v := (cp - 65536)%N in
        (55296 + N.shiftr v 10)%N :: (56320 + N.land v 1023)%N
          :: utf16_of_utf8 r3
      | _ => []
      end
  end.

Definition js (s : string) : jsstring :=
  utf16_of_utf8 (List.map (fun b => N_of_ascii (ascii_of_byte b)) (list_byte_of_string s)).

Definition char_eqb (a b : jschar) : bool := N.eqb a b.

Fixpoint str_eqb (s t : jsstring) : bool :=
  match s, t with
  | [], [] => true
  | a :: s', b :: t' => char_eqb a b && str_eqb s' t'
  | _, _ => false
  end.

(** [s.startsWith(p)] *)
Fixpoint startsWith (s p : jsstring) : bool :=
  match p, s with
  | [], _ => true
  | a :: p', b :: s' => char_eqb a b && startsWith s' p'
  | _ :: _, [] => false
  end.

(** [s.includes(p)] *)
Fixpoint includes (s p : jsstring) : bool :=
  startsWith s p ||
  match s with
  | [] => false
  | _ :: s' => includes s' p
  end.

(** [s.endsWith(p)] *)
Definition endsWith (s p : jsstring) : bool :=
  startsWith (rev s) (rev p).

(** WhiteSpace and LineTerminator code units of ECMAScript: what [trim]
    strips and what [\s] matches. *)
Definition isLineTerminator (c : jschar) : bool :=
  existsb (char_eqb c) [10; 13; 8232; 8233]%N.

Definition isWhiteSpace (c : jschar) : bool :=
  existsb (char_eqb c) [9; 11; 12; 32; 160; 5760; 8239; 8287; 12288; 65279]%N
  || ((8192 <=? c) && (c <=? 8202))%N
  || isLineTerminator c.

Fixpoint trimStart (s : jsstring) : jsstring :=
  match s with
  | c :: s' => if isWhiteSpace c then trimStart s' else s
  | [] => []
  end.

Definition trimEnd (s : jsstring) : jsstring := rev (trimStart (rev s)).

(** [s.trim()] *)
Definition trim (s : jsstring) : jsstring := trimEnd (trimStart s).

(** [s.length] *)
Definition jslength (s : jsstring) : Z := Z.of_nat (List.length s).

(** [!s] and [s || d] on strings: only the empty string is falsy. *)
Definition truthy (s : jsstring) : bool :=
  match s with [] => false | _ :: _ => true end.

Definition orElse (s d : jsstring) : jsstring :=
  if truthy s then s else d.

End JsString.
Import JsString.

(** ** Regular expressions

    The regular expression literals of the source use literals, character
    classes, [.], [*], [+], [?], alternation and the anchors [^] and [$];
    no flag changes their meaning here (the [i] flag of the chapter
    pattern is applied to CJK characters, digits and punctuation only,
    which have no case).  [RegExp.prototype.test] and [String.prototype.match]
    answer whether some match exists, which is what [test] decides, by
    derivatives. *)

Module Regex.

Inductive regex : Type :=
| Fail : regex
| Eps : regex
| Class : (jschar -> bool) -> regex
| Cat : regex -> regex -> regex
| Alt : regex -> regex -> regex
| Star : regex -> regex.

Fixpoint nullable (r : regex) : bool :=
  match r with
  | Fail => false
  | Eps => true
  | Class _ => false
  | Cat r1 r2 => nullable r1 && nullable r2
  | Alt r1 r2 => nullable r1 || nullable r2
  | Star _ => true
  end.

(** Constructors that drop [Fail] and [Eps] operands, to keep derivatives
    small. *)
Definition cat (r1 r2 : regex) : regex :=
  match r1, r2 with
  | Fail, _ => Fail
  | _, Fail => Fail
  | Eps, _ => r2
  | _, Eps => r1
  | _, _ => Cat r1 r2
  end.

Definition alt (r1 r2 : regex) : regex :=
  match r1, r2 with
  | Fail, _ => r2
  | _, Fail => r1
  | _, _ => Alt r1 r2
  end.

Fixpoint deriv (c : jschar) (r : regex) : regex :=
  match r with
  | Fail => Fail
  | Eps => Fail
  | Class p => if p c then Eps else Fail
  | Cat r1 r2 =>
    if nullable r1 then alt (cat (deriv c r1) r2) (deriv c r2)
    else cat (deriv c r1) r2
  | Alt r1 r2 => alt (deriv c r1) (deriv c r2)
  | Star r1 => cat (deriv c r1) (Star r1)
  end.

(** The whole of [s] matches [r]. *)
Fixpoint fullMatch (r : regex) (s : jsstring) : bool :=
  match s with
  | [] => nullable r
  | c :: s' => fullMatch (deriv c r) s'
  end.

(** What it means for a string to match, for reference: [fullMatch]
    decides it ([fullMatch_Matches] below). *)
Inductive Matches : regex -> jsstring -> Prop :=
| MEps : Matches Eps []
| MClass : forall p c, p c = true -> Matches (Class p) [c]
| MCat : forall r1 r2 s1 s2,
    Matches r1 s1 -> Matches r2 s2 -> Matches (Cat r1 r2) (s1 ++ s2)
| MAltL : forall r1 r2 s, Matches r1 s -> Matches (Alt r1 r2) s
| MAltR : forall r1 r2 s, Matches r2 s -> Matches (Alt r1 r2) s
| MStarNil : forall r, Matches (Star r) []
| MStarApp : forall r s1 s2,
    Matches r s1 -> Matches (Star r) s2 -> Matches (Star r) (s1 ++ s2).

(** Pattern atoms. *)
Definition anyUnit : regex := Class (fun _ => true).
Definition dot : regex := Class (fun c => negb (isLineTerminator c)).
Definition oneOf (chars : string) : regex :=
  Class (fun c => existsb (char_eqb c) (js chars)).
Definition lit (s : string) : regex :=
  fold_right (fun c r => Cat (Class (char_eqb c)) r) Eps (js s).
Definition cats (rs : list regex) : regex := fold_right Cat Eps rs.
Definition plus (r : regex) : regex := Cat r (Star r).
Definition opt (r : regex) : regex := Alt r Eps.

Definition isDigit (c : jschar) : bool := ((48 <=? c) && (c <=? 57))%N.
Definition isAsciiLetter (c : jschar) : bool :=
  (((65 <=? c) && (c <=? 90)) || ((97 <=? c) && (c <=? 122)))%N.
Definition digit : regex := Class isDigit.
Definition space : regex := Class isWhiteSpace.

(** A literal [/r/], [/^r/], [/r$/] or [/^r$/], with its anchors. *)
Record pattern : Type := Pattern {
  anchoredStart : bool;
  body : regex;
  anchoredEnd : bool
}.

Definition unanchored (r : regex) : pattern := Pattern false r false.
Definition fromStart (r : regex) : pattern := Pattern true r false.
Definition toEnd (r : regex) : pattern := Pattern false r true.

(** [pattern.test(s)]: a match may start anywhere unless [^] pins it to
    the start, and end anywhere unless [$] pins it to the end. *)
Definition test (p : pattern) (s : jsstring) : bool :=
  let pre := if anchoredStart p then Eps else Star anyUnit in
  let post := if anchoredEnd p then Eps else Star anyUnit in
  fullMatch (Cat pre (Cat (body p) post)) s.

End Regex.
Import Regex.

(** ** services/documentParser.js *)

Module DocumentParser.

Inductive SectionType : Type :=
| type_text
| type_subtitle
| type_image
| type_other.   (* any other string in the [type] field *)

Definition SectionType_eqb (a b : SectionType) : bool :=
  match a, b with
  | type_text, type_text => true
  | type_subtitle, type_subtitle => true
  | type_image, type_image => true
  | type_other, type_other => true
  | _, _ => false
  end.

Record Section : Type := mkSection {
  type : SectionType;
  content : jsstring;
  position : Z
}.

Record ImageInfo : Type := mkImageInfo {
  isImage : bool;
  caption : jsstring
}.

(** [words.some(w => text.includes(w))] *)
Definition includesAny (text : jsstring) (words : list string) : bool :=
  existsb (fun w => includes text (js w)) words.

Definition imageMarkers : list string :=
  ["[图片]"; "[image]"; "[img]"; "【图片】"; "【image】"; "【img】"].

Definition cjkNumerals : string := "一二三四五六七八九".

Definition tuDigits : pattern :=          (* /图\s*\d+/ *)
  unanchored (cats [lit "图"; Star space; plus digit]).
Definition tuNumeral : pattern :=         (* /图\s*[一二三四五六七八九]/ *)
  unanchored (cats [lit "图"; Star space; oneOf cjkNumerals]).
Definition tuLetter : pattern :=          (* /图\s*[A-Za-z]/ *)
  unanchored (cats [lit "图"; Star space; Class isAsciiLetter]).

Definition imageCaptionKeywords : list string :=
  ["注释"; "说明"; "备注"; "描述"; "caption"; "图注"; "配图"; "插图"].

Definition imageCaptionFormat : pattern :=   (* /^\d+[\.\、]/ *)
  fromStart (cats [plus digit; oneOf ".、"]).

Definition imageDescriptionPatterns : list pattern :=
  [ unanchored (cats [Star dot; lit "图"; Star dot; lit "展示"; Star dot]);
    unanchored (cats [Star dot; lit "图"; Star dot; lit "显示"; Star dot]);
    unanchored (cats [Star dot; lit "如图"; Star dot]);
    unanchored (cats [Star dot; lit "图片"; Star dot; oneOf "展|显"; lit "示"; Star dot]);
    unanchored (cats [Star dot; lit "插图"; Star dot]);
    unanchored (cats [Star dot; lit "配图"; Star dot]) ].

Definition tuCaptionPattern : pattern :=  (* /^图[\d一二三四五六七八九]+[\s\u3000]+.+/ *)
  fromStart (cats [lit "图";
                   plus (Alt digit (oneOf cjkNumerals));
                   plus (Alt space (Class (char_eqb 12288%N)));
                   plus dot]).

Definition _isImagePlaceholder (text : jsstring) : ImageInfo :=
  let hasImageMarker := includesAny text imageMarkers in
  if hasImageMarker then mkImageInfo true text else
  let hasTuWord := includes text (js "图") in
  let matchesNumberPattern :=
    test tuDigits text || test tuNumeral text || test tuLetter text in
  if hasTuWord && matchesNumberPattern then mkImageInfo true text else
  let isImageOnly :=
    str_eqb (trim text) (js "图片") || str_eqb (trim text) (js "图像") in
  if isImageOnly then mkImageInfo true text else
  let hasImageCaptionKeyword := includesAny text imageCaptionKeywords in
  if hasImageCaptionKeyword then mkImageInfo true text else
  let isImageCaptionFormat := test imageCaptionFormat (trim text) in
  if isImageCaptionFormat then mkImageInfo true text else
  let matchesImageDescription :=
    existsb (fun p => test p text) imageDescriptionPatterns in
  if matchesImageDescription then mkImageInfo true text else
  let startsWithTu := startsWith (trim text) (js "图") in
  if startsWithTu then mkImageInfo true text else
  if hasTuWord && test tuCaptionPattern (trim text) then mkImageInfo true text
  else mkImageInfo false [].

Definition subtitleKeywords : list string :=
  ["介绍"; "概述"; "总结"; "结论"; "方法"; "步骤"; "注意"; "要点";
   "背景"; "目的"; "意义"; "问题"; "分析"; "讨论"; "结果"; "建议";
   "第一章"; "第二章"; "第三章"; "第四章"; "第五章"; "第六章"; "第七章"; "第八章"; "第九章";
   "一、"; "二、"; "三、"; "四、"; "五、"; "六、"; "七、"; "八、"; "九、";
   "首先"; "其次"; "最后"; "第一"; "第二"; "第三";
   "助力"; "陪伴"; "成长"; "课堂"; "教学"; "学习"; "教育";
   "特点"; "优势"; "内容"; "展示"; "案例"; "总结";
   "志愿"; "服务"; "活动"; "实践"; "体验"; "中心"; "之旅"].

Definition bodyStartWords : list string :=
  ["我们"; "他们"; "她们"; "它"; "这个"; "这些"; "那些"; "那么"; "因为"; "所以";
   "但是"; "然而"; "虽然"; "如果"; "为了"; "由于"; "通过"; "根据"; "对于";
   "今天"; "昨天"; "明天"; "现在"; "目前"; "已经"; "正在"; "将会"].

(** [/.*a.*b.*/] *)
Definition around (a b : string) : pattern :=
  unanchored (cats [Star dot; lit a; Star dot; lit b; Star dot]).

Definition specialSubtitlePatterns : list pattern :=
  [ around "助力" "成长"; around "课堂" "教学"; around "学习" "教育";
    around "特点" "优势"; around "内容" "展示"; around "志愿" "能力";
    around "特教" "中心" ].

Definition subtitleEndings : list string := ["："; ":"; "】"; "）"; ")"].

Definition colonEnding : pattern :=        (* /.*[：:]$/ *)
  toEnd (cats [Star dot; oneOf "：:"]).
Definition bodyPunctuationEnding : pattern :=   (* /[，。；！？]$/ *)
  toEnd (oneOf "，。；！？").
Definition chapterIndicator : pattern :=
  (* /^(第?[一二三四五六七八九十章]+|[\d]+[、.])/i *)
  fromStart (Alt (cats [opt (lit "第"); plus (oneOf "一二三四五六七八九十章")])
                 (cats [plus digit; oneOf "、."])).
Definition listSeparator : pattern :=      (* /.*[，、,].*/ *)
  unanchored (cats [Star dot; oneOf "，、,"; Star dot]).

(** The conditions of [_isSubtitle] that read the context or are named in
    the properties below; the others stay local to the function. *)
Definition hasSubtitleKeyword (text : jsstring) : bool :=
  includesAny text subtitleKeywords.

Definition startsWithBodyWord (text : jsstring) : bool :=
  existsb (fun w => startsWith text (js w)) bodyStartWords.

(** [sections.length > 0 && sections[sections.length - 1].type === 'subtitle'] *)
Definition hasPreviousSubtitle (sections : list Section) : bool :=
  match last (List.map Some sections) None with
  | Some s => SectionType_eqb (type s) type_subtitle
  | None => false
  end.

Definition isListItemStyle (text : jsstring) (sections : list Section) : bool :=
  hasPreviousSubtitle sections && negb (startsWithBodyWord text)
  && (jslength text <=? 20)%Z.

Definition _isSubtitle (text : jsstring) (sections : list Section) : bool :=
  let shortText := (jslength text <=? 30)%Z in
  let matchesSpecialPattern :=
    existsb (fun p => test p text) specialSubtitlePatterns in
  let endsWithSubtitleEnding :=
    existsb (fun e => endsWith (trim text) (js e)) subtitleEndings in
  let endsWithColon := test colonEnding (trim text) in
  let endsWithBodyPunctuation := test bodyPunctuationEnding (trim text) in
  let hasChapterIndicator := test chapterIndicator (trim text) in
  let isParallelStructure :=
    test listSeparator text &&
    (includes text (js "志愿") || includes text (js "服务") ||
     includes text (js "活动") || includes text (js "中心") ||
     includes text (js "之旅")) in
  let isLikelySubtitle :=
    shortText &&
    (hasSubtitleKeyword text || matchesSpecialPattern || endsWithSubtitleEnding ||
     endsWithColon || hasChapterIndicator || isListItemStyle text sections ||
     isParallelStructure) &&
    negb endsWithBodyPunctuation in
  isLikelySubtitle.

(** The body of the [for] loop of [_analyzeContentStructure], over the
    paragraphs from index 1 on; [sections] and [position] are the loop's
    two mutable variables. *)
Fixpoint analyzeLoop (rest : list jsstring) (sections : list Section)
    (position : Z) : list Section :=
  match rest with
  | [] => sections
  | p :: rest' =>
    let paragraph := trim p in
    if str_eqb paragraph [] then analyzeLoop rest' sections position
    else
      let imageInfo := _isImagePlaceholder paragraph in
      if isImage imageInfo then
        analyzeLoop rest'
          (sections ++ [mkSection type_image (orElse (caption imageInfo) []) position])
          (position + 1)
      else if _isSubtitle paragraph sections then
        analyzeLoop rest'
          (sections ++ [mkSection type_subtitle paragraph position])
          (position + 1)
      else
        analyzeLoop rest'
          (sections ++ [mkSection type_text paragraph position])
          (position + 1)
  end.

(** [paragraphs[0]] is the title and is skipped. *)
Definition _analyzeContentStructure (paragraphs : list jsstring) : list Section :=
  analyzeLoop (tl paragraphs) [] 1.

(** The section the loop pushes for a trimmed paragraph that is not
    empty, read off the three branches above ([analyzeLoop_step] below). *)
Definition classified (paragraph : jsstring) (sections : list Section)
    (position : Z) : Section :=
  if isImage (_isImagePlaceholder paragraph)
  then mkSection type_image paragraph position
  else if _isSubtitle paragraph sections
  then mkSection type_subtitle paragraph position
  else mkSection type_text paragraph position.

End DocumentParser.

(** ** services/templateRepository.js *)

Module TemplateRepository.

(** The three strings a [selectTemplate] function of this repository
    returns. *)
Inductive LayoutType : Type :=
| single_image                 (* 'single-image' *)
| double_image_with_caption    (* 'double-image-with-caption' *)
| double_image_no_caption.     (* 'double-image-no-caption' *)

(** A truthy value of a [selectTemplate] property. *)
Inductive Callee : Type :=
| NotAFunction : Callee
| Function : (Z -> LayoutType) -> Callee.

(** A template object.  A property that is missing or holds a falsy
    non-string value is [None]. *)
Record Template : Type := mkTemplate {
  id : option jsstring;
  name : option jsstring;
  description : option jsstring;
  selectTemplate : option Callee
}.

(** [this.templates] is a plain object used as a dictionary: its own
    properties in insertion order.  [this.defaultTemplate] is a string or
    [null]. *)
Record Repository : Type := mkRepository {
  templates : list (jsstring * Template);
  defaultTemplate : option jsstring
}.

(** What a property read [this.templates[key]] yields.  The object is
    created by an object literal, so a key it does not own is looked up in
    [Object.prototype]. *)
Inductive Value : Type :=
| VUndefined : Value
| VNull : Value
| VInherited : Value            (* a member of Object.prototype *)
| VTemplate : Template -> Value.

Definition objectPrototypeKeys : list string :=
  ["constructor"; "__defineGetter__"; "__defineSetter__"; "hasOwnProperty";
   "__lookupGetter__"; "__lookupSetter__"; "isPrototypeOf";
   "propertyIsEnumerable"; "toString"; "valueOf"; "__proto__";
   "toLocaleString"].

Definition isInherited (key : jsstring) : bool :=
  existsb (fun k => str_eqb key (js k)) objectPrototypeKeys.

Fixpoint getOwn (props : list (jsstring * Template)) (key : jsstring)
    : option Template :=
  match props with
  | [] => None
  | (k, v) :: props' => if str_eqb k key then Some v else getOwn props' key
  end.

(** [obj[key]] *)
Definition getProp (props : list (jsstring * Template)) (key : jsstring) : Value :=
  match getOwn props key with
  | Some t => VTemplate t
  | None => if isInherited key then VInherited else VUndefined
  end.

Definition truthyValue (v : Value) : bool :=
  match v with
  | VUndefined | VNull => false
  | VInherited | VTemplate _ => true
  end.

Definition truthyOpt (s : option jsstring) : bool :=
  match s with
  | Some s' => truthy s'
  | None => false
  end.

(** [obj[key] = v]: an own property keeps its place, a new one goes last. *)
Fixpoint setOwn (props : list (jsstring * Template)) (key : jsstring)
    (v : Template) : list (jsstring * Template) :=
  match props with
  | [] => [(key, v)]
  | (k, w) :: props' =>
    if str_eqb k key then (k, v) :: props' else (k, w) :: setOwn props' key v
  end.

(** [delete obj[key]] *)
Definition deleteOwn (props : list (jsstring * Template)) (key : jsstring)
    : list (jsstring * Template) :=
  filter (fun kv => negb (str_eqb (fst kv) key)) props.

(** [Object.keys] lists the array-index keys (canonical decimal strings
    below 2^32 - 1) in ascending numeric order, then the other keys in
    insertion order. *)
Fixpoint decimalValue (acc : N) (s : jsstring) : option N :=
  match s with
  | [] => Some acc
  | c :: s' =>
    if isDigit c then decimalValue (acc * 10 + (c - 48))%N s' else None
  end.

Definition arrayIndex (key : jsstring) : option N :=
  match key with
  | [] => None
  | c :: rest =>
    if char_eqb c 48%N && truthy rest then None
    else if (10 <? List.length key)%nat then None
    else match decimalValue 0 key with
         | Some n => if (n <? 4294967295)%N then Some n else None
         | None => None
         end
  end.

Fixpoint insertIndex (n : N) (key : jsstring) (sorted : list (N * jsstring))
    : list (N * jsstring) :=
  match sorted with
  | [] => [(n, key)]
  | (m, k) :: sorted' =>
    if (n <=? m)%N then (n, key) :: sorted
    else (m, k) :: insertIndex n key sorted'
  end.

Fixpoint indexKeys (keys : list jsstring) : list (N * jsstring) :=
  match keys with
  | [] => []
  | k :: keys' =>
    match arrayIndex k with
    | Some n => insertIndex n k (indexKeys keys')
    | None => indexKeys keys'
    end
  end.

Definition isNamedKey (key : jsstring) : bool :=
  match arrayIndex key with Some _ => false | None => true end.

Definition objectKeys (props : list (jsstring * Template)) : list jsstring :=
  List.map snd (indexKeys (List.map fst props))
  ++ filter isNamedKey (List.map fst props).

(** *** Exceptions and the state of the repository *)

Inductive Error : Type :=
| TemplateEmpty : Error               (* '模板对象不能为空' *)
| TemplateIncomplete : Error          (* '模板必须包含id、name和selectTemplate属性' *)
| TemplateExists : jsstring -> Error  (* '模板ID ... 已存在' *)
| SelectNotFunction : Error           (* 'selectTemplate必须是一个函数' *)
| TemplateIdEmpty : Error             (* '模板ID不能为空' *)
| TemplateMissing : jsstring -> Error (* '模板 ... 不存在' *)
| LastTemplate : Error                (* '不能删除所有模板，至少需要保留一个模板' *)
| IdOrNameMissing : Error             (* '模板必须包含ID和名称' *)
| TypeError : Error                   (* raised by the runtime *)
| ApplyFailed : Error -> Error.       (* '模板应用失败: ...' *)

Inductive Result (A : Type) : Type :=
| Ok : A -> Result A
| Throw : Error -> Result A.
Arguments Ok {A} _.
Arguments Throw {A} _.

(** A method of the repository: it runs on the current state [this] and
    leaves a result or an exception, and the state it reached. *)
Definition M (A : Type) : Type := Repository -> Result A * Repository.

Definition ret {A : Type} (a : A) : M A := fun this => (Ok a, this).
Definition throw {A : Type} (e : Error) : M A := fun this => (Throw e, this).
Definition bind {A B : Type} (m : M A) (k : A -> M B) : M B :=
  fun this =>
    match m this with
    | (Ok a, this') => k a this'
    | (Throw e, this') => (Throw e, this')
    end.
Definition get : M Repository := fun this => (Ok this, this).
Definition put (r : Repository) : M unit := fun _ => (Ok tt, r).

Notation "x <- m ;; k" := (bind m (fun x => k))
  (at level 61, m at next level, right associativity).
Notation "m ;;; k" := (bind m (fun _ => k))
  (at level 61, right associativity).

(** *** The built-in selection functions *)

Definition _selectBusinessTemplate (imageCount : Z) : LayoutType :=
  if ((0 <? imageCount) && (imageCount <=? 2))%Z then double_image_with_caption
  else if (3 <=? imageCount)%Z then double_image_no_caption
  else single_image.

Definition _selectSimpleTemplate (imageCount : Z) : LayoutType :=
  single_image.

Definition _selectEducationTemplate (imageCount : Z) : LayoutType :=
  if ((0 <? imageCount) && (imageCount <=? 1))%Z then single_image
  else if (2 <=? imageCount)%Z then double_image_with_caption
  else single_image.

Definition _selectCreativeTemplate (imageCount : Z) : LayoutType :=
  if ((0 <? imageCount) && (imageCount <=? 2))%Z then double_image_with_caption
  else if (3 <=? imageCount)%Z then double_image_no_caption
  else single_image.

Definition builtIn (i n d : string) (f : Z -> LayoutType) : jsstring * Template :=
  (js i, mkTemplate (Some (js i)) (Some (js n)) (Some (js d)) (Some (Function f))).

(** The state the constructor leaves. *)
Definition constructor : Repository :=
  mkRepository
    [ builtIn "business" "商务风格" "适用于商务类文章的模板风格" _selectBusinessTemplate;
      builtIn "simple" "简约风格" "简洁明了的文章模板风格" _selectSimpleTemplate;
      builtIn "education" "教育风格" "适用于教育类文章的模板风格" _selectEducationTemplate;
      builtIn "creative" "创意风格" "富有创意设计感的文章模板风格" _selectCreativeTemplate ]
    (Some (js "business")).

(** *** Methods *)

Definition getAllTemplates (this : Repository) : list (jsstring * Template) :=
  templates this.

(** [this.templates[templateId] || null] *)
Definition getTemplateById (this : Repository) (templateId : jsstring) : Value :=
  let v := getProp (templates this) templateId in
  if truthyValue v then v else VNull.

(** A [null] key reads the property named "null". *)
Definition propertyKey (k : option jsstring) : jsstring :=
  match k with
  | Some s => s
  | None => js "null"
  end.

Definition getDefaultTemplate (this : Repository) : Value :=
  getProp (templates this) (propertyKey (defaultTemplate this)).

Definition setDefaultTemplate (templateId : jsstring) : M unit :=
  this <- get ;;
  if truthyValue (getProp (templates this) templateId)
  then put (mkRepository (templates this) (Some templateId))
  else ret tt.

Definition addTemplate (template : option Template) : M unit :=
  this <- get ;;
  match template with
  | None => throw TemplateEmpty
  | Some t =>
    if negb (truthyOpt (id t)) || negb (truthyOpt (name t))
       || match selectTemplate t with None => true | Some _ => false end
    then throw TemplateIncomplete
    else
      let key := propertyKey (id t) in
      if truthyValue (getProp (templates this) key)
      then throw (TemplateExists key)
      else
        match selectTemplate t with
        | Some (Function _) =>
          put (mkRepository (setOwn (templates this) key t) (defaultTemplate this))
        | _ => throw SelectNotFunction
        end
  end.

Definition removeTemplate (templateId : jsstring) : M unit :=
  this <- get ;;
  if negb (truthy templateId) then throw TemplateIdEmpty
  else if negb (truthyValue (getProp (templates this) templateId))
  then throw (TemplateMissing templateId)
  else if (List.length (objectKeys (templates this)) <=? 1)%nat
  then throw LastTemplate
  else
    put (mkRepository (deleteOwn (templates this) templateId) (defaultTemplate this)) ;;;
    this <- get ;;
    match defaultTemplate this with
    | Some d =>
      if str_eqb d templateId then
        let templateIds := objectKeys (templates this) in
        put (mkRepository (templates this)
               (match templateIds with
                | first :: _ => Some first
                | [] => None
                end))
      else ret tt
    | None => ret tt
    end.

Record ImageRules : Type := mkImageRules {
  minImagesForDoubleNoCaption : option Z;
  minImagesForDoubleWithCaption : option Z
}.

(** [imageCount >= bound]; a missing bound is [undefined] and the
    comparison is false. *)
Definition atLeast (imageCount : Z) (bound : option Z) : bool :=
  match bound with
  | Some b => (b <=? imageCount)%Z
  | None => false
  end.

Definition _createCustomSelectTemplate (imageRules : ImageRules) : Z -> LayoutType :=
  fun imageCount =>
    if atLeast imageCount (minImagesForDoubleNoCaption imageRules)
    then double_image_no_caption
    else if atLeast imageCount (minImagesForDoubleWithCaption imageRules)
    then double_image_with_caption
    else single_image.

Record TemplateConfig : Type := mkTemplateConfig {
  cfg_id : option jsstring;
  cfg_name : option jsstring;
  cfg_description : option jsstring;
  cfg_baseTemplate : option jsstring;
  cfg_imageRules : option ImageRules
}.

(** [base.selectTemplate] and [base.description]: reading a property of
    [undefined] or [null] raises a TypeError; the members of
    [Object.prototype] have neither property. *)
Definition readSelectTemplate (base : Value) : M (option Callee) :=
  match base with
  | VUndefined | VNull => throw TypeError
  | VInherited => ret None
  | VTemplate t => ret (selectTemplate t)
  end.

Definition readDescription (base : Value) : M (option jsstring) :=
  match base with
  | VUndefined | VNull => throw TypeError
  | VInherited => ret None
  | VTemplate t => ret (description t)
  end.

Definition createCustomTemplate (templateConfig : TemplateConfig) : M Template :=
  this <- get ;;
  let id := cfg_id templateConfig in
  let name := cfg_name templateConfig in
  let description := cfg_description templateConfig in
  let baseTemplate := cfg_baseTemplate templateConfig in
  let imageRules := cfg_imageRules templateConfig in
  if negb (truthyOpt id) || negb (truthyOpt name) then throw IdOrNameMissing
  else if truthyValue (getProp (templates this) (propertyKey id))
  then throw (TemplateExists (propertyKey id))
  else
    let base :=
      if truthyOpt baseTemplate
         && truthyValue (getProp (templates this) (propertyKey baseTemplate))
      then getProp (templates this) (propertyKey baseTemplate)
      else getDefaultTemplate this in
    selectTemplate <-
      match imageRules with
      | Some rules => ret (Some (Function (_createCustomSelectTemplate rules)))
      | None => readSelectTemplate base
      end ;;
    description' <-
      (if truthyOpt description then ret description else readDescription base) ;;
    let newTemplate := mkTemplate id name description' selectTemplate in
    addTemplate (Some newTemplate) ;;;
    ret newTemplate.

(** *** The invariant of the repository

    At least one template is registered and [defaultTemplate] names a
    registered one.  [uniqueKeys] says that the list stands for an object:
    no key is owned twice. *)
Definition registered (this : Repository) (key : jsstring) : bool :=
  match getOwn (templates this) key with
  | Some _ => true
  | None => false
  end.

Definition invariant (this : Repository) : bool :=
  match templates this with
  | [] => false
  | _ :: _ =>
    match defaultTemplate this with
    | Some d => registered this d
    | None => false
    end
  end.

Definition uniqueKeys (this : Repository) : Prop :=
  NoDup (List.map fst (templates this)).

(** A method keeps the invariant, and changes nothing when it throws. *)
Definition preserves {A : Type} (m : M A) : Prop :=
  forall this : Repository,
    uniqueKeys this -> invariant this = true ->
    uniqueKeys (snd (m this))
    /\ invariant (snd (m this)) = true
    /\ (forall e, fst (m this) = Throw e -> snd (m this) = this).

End TemplateRepository.

(** ** services/templateEngine.js *)

Module TemplateEngine.

Import DocumentParser TemplateRepository.

Record ParsedContent : Type := mkParsedContent {
  title : jsstring;
  sections : list Section
}.

(** The markup is a concatenation of blocks, each a fixed template literal
    with holes.  A block is kept as its name and the strings that fill its
    holes; the fixed markup around the holes is left out. *)
Inductive Block : Type :=
| HeaderImageBlock : Block
| ContainerOpen : bool -> Block                 (* creative background or not *)
| TitleBlock : jsstring -> Block
| CreativeTitleBlock : jsstring -> Block
| DividerLine : Block
| TextBlock : jsstring -> Block
| CreativeTextBlock : jsstring -> Block
| SubtitleBlock : jsstring -> Block
| CreativeSubtitleBlock : jsstring -> Block
| ImageWithCaptionBlock :
    jsstring -> jsstring -> jsstring -> jsstring -> Block
    (* imageSrc1, displayCaption1, imageSrc2, displayCaption2 *)
| CreativeImageWithCaptionBlock :
    jsstring -> jsstring -> jsstring -> jsstring -> Block
| SingleImageBlock : Block
| CreativeSingleImageBlock : Block
| DoubleImageNoCaptionBlock : Block
| CreativeDoubleImageNoCaptionBlock : Block
| ContainerClose : Block
| FooterBlock : Block.

Definition Html : Type := list Block.

Definition _getHeaderImageBlock : Html := [HeaderImageBlock].
Definition _getFooterBlock : Html := [FooterBlock].

Definition isCreative (templateId : option jsstring) : bool :=
  match templateId with
  | Some s => str_eqb s (js "creative")
  | None => false
  end.

Definition _getTitleBlock (title : jsstring) (templateId : option jsstring) : Html :=
  if isCreative templateId then [CreativeTitleBlock title] else [TitleBlock title].

Definition _getTextBlock (content : jsstring) : Html := [TextBlock content].
Definition _getCreativeTextBlock (content : jsstring) : Html :=
  [CreativeTextBlock content].
Definition _getSubtitleBlock (content : jsstring) : Html := [SubtitleBlock content].
Definition _getCreativeSubtitleBlock (content : jsstring) : Html :=
  [CreativeSubtitleBlock content].
Definition _getSingleImageBlock : Html := [SingleImageBlock].
Definition _getCreativeSingleImageBlock : Html := [CreativeSingleImageBlock].
Definition _getDoubleImageNoCaptionBlock : Html := [DoubleImageNoCaptionBlock].
Definition _getCreativeDoubleImageNoCaptionBlock : Html :=
  [CreativeDoubleImageNoCaptionBlock].

Definition imageSources : list jsstring :=
  [ js "https://bcn.135editor.com/files/images/editor_styles/ff9cb06459e31801669bcff7c5540f81.png";
    js "https://bcn.135editor.com/files/images/editor_styles/152761406d63a8a84e2a9a39760e8350.png" ].

(** [array[i]] inside a template literal: a missing element prints as
    "undefined". *)
Definition element (array : list jsstring) (i : Z) : jsstring :=
  if (i <? 0)%Z then js "undefined"
  else nth (Z.to_nat i) array (js "undefined").

(** [String.fromCharCode(n)]: the code unit [n] modulo 2^16. *)
Definition fromCharCode (n : Z) : jsstring := [Z.to_N (n mod 65536)].

Definition captionNumber1 (startIndex : Z) : jsstring :=
  fromCharCode (0x2460 + (startIndex - 1)).

Definition captionNumber2 (startIndex : Z) : jsstring :=
  fromCharCode (0x2460 + Z.rem startIndex (Z.of_nat (List.length imageSources))).

(** The four holes of the two caption blocks are computed alike. *)
Definition captionHoles (startIndex : Z) (caption1 caption2 : jsstring)
    : (jsstring * jsstring) * (jsstring * jsstring) :=
  let len := Z.of_nat (List.length imageSources) in
  let imageSrc1 := element imageSources (Z.rem (startIndex - 1) len) in
  let imageSrc2 := element imageSources (Z.rem startIndex len) in
  let displayCaption1 := orElse caption1 (captionNumber1 startIndex ++ js " 图注") in
  let displayCaption2 := orElse caption2 (captionNumber2 startIndex ++ js " 图注") in
  ((imageSrc1, displayCaption1), (imageSrc2, displayCaption2)).

Definition _getImageWithCaptionBlock (startIndex : Z) (caption1 caption2 : jsstring)
    : Html :=
  match captionHoles startIndex caption1 caption2 with
  | ((imageSrc1, displayCaption1), (imageSrc2, displayCaption2)) =>
    [ImageWithCaptionBlock imageSrc1 displayCaption1 imageSrc2 displayCaption2]
  end.

Definition _getCreativeImageWithCaptionBlock (startIndex : Z)
    (caption1 caption2 : jsstring) : Html :=
  match captionHoles startIndex caption1 caption2 with
  | ((imageSrc1, displayCaption1), (imageSrc2, displayCaption2)) =>
    [CreativeImageWithCaptionBlock imageSrc1 displayCaption1 imageSrc2 displayCaption2]
  end.

(** The mutable variables of [_processContentSections]. *)
Record Loop : Type := mkLoop {
  html : Html;
  imageIndex : Z;
  captionIndex : Z
}.

Definition isImageSection (section : Section) : bool :=
  SectionType_eqb (type section) type_image.

(** [captionIndex < imageCaptions.length ? imageCaptions[captionIndex] : ''] *)
Definition captionAt (imageCaptions : list jsstring) (captionIndex : Z) : jsstring :=
  if (captionIndex <? Z.of_nat (List.length imageCaptions))%Z
  then nth (Z.to_nat captionIndex) imageCaptions []
  else [].

(** The callback of [sections.forEach]. *)
Definition processSection (template : LayoutType) (templateId : option jsstring)
    (imageCaptions : list jsstring) (st : Loop) (section : Section) : Loop :=
  match type section with
  | type_text =>
    mkLoop (html st ++ (if isCreative templateId
                        then _getCreativeTextBlock (content section)
                        else _getTextBlock (content section)))
           (imageIndex st) (captionIndex st)
  | type_subtitle =>
    mkLoop (html st ++ (if isCreative templateId
                        then _getCreativeSubtitleBlock (content section)
                        else _getSubtitleBlock (content section)))
           (imageIndex st) (captionIndex st)
  | type_image =>
    match template with
    | double_image_with_caption =>
      let caption1 := captionAt imageCaptions (captionIndex st) in
      let captionIndex1 := (captionIndex st + 1)%Z in
      let caption2 := captionAt imageCaptions captionIndex1 in
      let captionIndex2 := (captionIndex1 + 1)%Z in
      mkLoop (html st ++ (if isCreative templateId
                          then _getCreativeImageWithCaptionBlock (imageIndex st) caption1 caption2
                          else _getImageWithCaptionBlock (imageIndex st) caption1 caption2))
             (imageIndex st + 2) captionIndex2
    | double_image_no_caption =>
      mkLoop (html st ++ (if isCreative templateId
                          then _getCreativeDoubleImageNoCaptionBlock
                          else _getDoubleImageNoCaptionBlock))
             (imageIndex st) (captionIndex st)
    | single_image =>
      mkLoop (html st ++ (if isCreative templateId
                          then _getCreativeSingleImageBlock
                          else _getSingleImageBlock))
             (imageIndex st) (captionIndex st)
    end
  | type_other => st
  end.

Definition _processContentSections (sections : list Section)
    (template : LayoutType) (templateId : option jsstring) : Html :=
  let imageCaptions := List.map content (filter isImageSection sections) in
  html (fold_left (processSection template templateId imageCaptions)
                  sections (mkLoop [] 1 0)).

Definition _generateHTML (content : ParsedContent) (template : LayoutType)
    (templateId : option jsstring) : Html :=
  _getHeaderImageBlock
  ++ [ContainerOpen (isCreative templateId)]
  ++ (if truthy (title content) then _getTitleBlock (title content) templateId else [])
  ++ [DividerLine]
  ++ _processContentSections (sections content) template templateId
  ++ [ContainerClose]
  ++ _getFooterBlock.

(** [template.selectTemplate(imageCount)]: a TypeError when [template] is
    [null] or [undefined], or when the property is not a function. *)
Definition callSelectTemplate (template : Value) (imageCount : Z) : Result LayoutType :=
  match template with
  | VTemplate t =>
    match selectTemplate t with
    | Some (Function f) => Ok (f imageCount)
    | _ => Throw TypeError
    end
  | _ => Throw TypeError
  end.

(** [template.id], once the call above has returned. *)
Definition templateIdOf (template : Value) : option jsstring :=
  match template with
  | VTemplate t => id t
  | _ => None
  end.

(** [applyTemplate] reads the repository and rejects with the wrapped
    error of its [try] block. *)
Definition applyTemplate (repository : Repository) (content : ParsedContent)
    (templateId : option jsstring) : Result Html :=
  let template :=
    if truthyOpt templateId
    then getTemplateById repository (propertyKey templateId)
    else getDefaultTemplate repository in
  let imageCount := Z.of_nat (List.length (filter isImageSection (sections content))) in
  match callSelectTemplate template imageCount with
  | Ok templateType => Ok (_generateHTML content templateType (templateIdOf template))
  | Throw error => Throw (ApplyFailed error)
  end.

(** The older selection rule kept in the engine. *)
Definition _selectTemplate (imageCount : Z) : LayoutType :=
  if ((0 <? imageCount) && (imageCount <=? 2))%Z then double_image_with_caption
  else if (3 <=? imageCount)%Z then double_image_no_caption
  else single_image.

(** *** Reading the caption blocks off the markup *)

Definition isCaptionBlock (b : Block) : bool :=
  match b with
  | ImageWithCaptionBlock _ _ _ _ | CreativeImageWithCaptionBlock _ _ _ _ => true
  | _ => false
  end.

(** The caption holes of the markup, in order of appearance. *)
Fixpoint captionSlots (h : Html) : list jsstring :=
  match h with
  | [] => []
  | ImageWithCaptionBlock _ d1 _ d2 :: h'
  | CreativeImageWithCaptionBlock _ d1 _ d2 :: h' => d1 :: d2 :: captionSlots h'
  | _ :: h' => captionSlots h'
  end.

(** The caption block the loop emits for the given template id. *)
Definition captionBlock (templateId : option jsstring) (startIndex : Z)
    (caption1 caption2 : jsstring) : Html :=
  if isCreative templateId
  then _getCreativeImageWithCaptionBlock startIndex caption1 caption2
  else _getImageWithCaptionBlock startIndex caption1 caption2.

(** The caption blocks of [n] successive image sections, the first taken
    with image index [i] and caption cursor [k]. *)
Fixpoint captionBlocks (templateId : option jsstring) (imageCaptions : list jsstring)
    (n : nat) (i k : Z) : Html :=
  match n with
  | O => []
  | S n' =>
    captionBlock templateId i (captionAt imageCaptions k) (captionAt imageCaptions (k + 1))
    ++ captionBlocks templateId imageCaptions n' (i + 2) (k + 2)
  end.

(** The circled number [n]: U+2460 is the circled digit one. *)
Definition circled (n : Z) : jsstring := [Z.to_N (0x2460 + (n - 1))].

End TemplateEngine.

(** ** routes/api.js: the route that sets the default template *)

Module Api.

Import TemplateRepository.

Inductive Status : Type :=
| status200     (* success *)
| status400     (* '缺少模板ID' *)
| status404     (* '模板不存在' *)
| status500.    (* an exception caught by the handler *)

(** [try { ... } catch (error) { res.status(500) ... }] *)
Definition handle (m : M Status) : M Status :=
  fun this =>
    match m this with
    | (Ok status, this') => (Ok status, this')
    | (Throw _, this') => (Ok status500, this')
    end.

(** [router.post('/set-default-template', ...)], with the [templateId] of
    the request body. *)
Definition postSetDefaultTemplate (templateId : option jsstring) : M Status :=
  handle
    (if negb (truthyOpt templateId) then ret status400
     else
       this <- get ;;
       let template := getTemplateById this (propertyKey templateId) in
       if negb (truthyValue template) then ret status404
       else
         setDefaultTemplate (propertyKey templateId) ;;;
         ret status200).

End Api.

(** ** services/documentParser.js: the two entry points *)

Module ParseDocument.

Import DocumentParser TemplateEngine.

(** [s.split('\n')]: the pieces between line feeds, one more than there
    are line feeds. *)
Fixpoint splitLines (s : jsstring) : list jsstring :=
  match s with
  | [] => [[]]
  | c :: s' =>
    if char_eqb c 10%N then [] :: splitLines s'
    else
      match splitLines s' with
      | line :: lines => (c :: line) :: lines
      | [] => [[c]]
      end
  end.

(** [p => p.trim() !== ''] *)
Definition notBlank (p : jsstring) : bool := negb (str_eqb (trim p) []).

(** What [parseDocument] makes of [result.value], the raw text that
    mammoth extracted. *)
Definition parseRawText (value : jsstring) : ParsedContent :=
  let paragraphs := filter notBlank (splitLines value) in
  let title :=
    match paragraphs with
    | first :: _ => trim first
    | [] => []
    end in
  let sections := _analyzeContentStructure paragraphs in
  mkParsedContent title sections.

Section Mammoth.

(** [mammoth.extractRawText], on the bytes of the buffer: the raw text, or
    [None] when the promise is rejected. *)
Variable extractRawText : list N -> option jsstring.


End Mammoth.

(** A section as [parseManualContent] leaves it, with the [manualEdit]
    flag of the Section typedef. *)
Record ManualSection : Type := mkManualSection {
  m_type : SectionType;
  m_content : jsstring;
  m_position : Z;
  manualEdit : bool
}.

Record ManualContent : Type := mkManualContent {
  m_title : jsstring;
  m_sections : list ManualSection
}.

(** [sections.map((section, index) => ({...section, position: index + 1,
    manualEdit: true}))], from the given index on. *)
Fixpoint markManual (index : Z) (sections : list Section) : list ManualSection :=
  match sections with
  | [] => []
  | section :: rest =>
    mkManualSection (type section) (content section) (index + 1) true
      :: markManual (index + 1) rest
  end.

Definition parseManualContent (content : ParsedContent) : ManualContent :=
  mkManualContent (title content) (markManual 0 (sections content)).

(** The fields of a marked section that the template engine can read. *)
Definition asSection (m : ManualSection) : Section :=
  mkSection (m_type m) (m_content m) (m_position m).

Definition asParsedContent (m : ManualContent) : ParsedContent :=
  mkParsedContent (m_title m) (List.map asSection (m_sections m)).

End ParseDocument.

(** ** routes/api.js: the other routes *)

Module Routes.

Import DocumentParser TemplateRepository TemplateEngine ParseDocument.

Inductive Reply : Type :=
| reply200     (* success: true *)
| reply400     (* a missing or malformed field of the request *)
| reply403     (* '不能删除内置模板' *)
| reply500.    (* an exception caught by the handler *)

(** [try { ... } catch (error) { res.status(500) ... }] *)
Definition catch500 (m : M Reply) : M Reply :=
  fun this =>
    match m this with
    | (Ok reply, this') => (Ok reply, this')
    | (Throw _, this') => (Ok reply500, this')
    end.

Definition builtInTemplates : list string :=
  ["business"; "simple"; "education"; "creative"].

(** [router.delete('/templates/:templateId', ...)] *)
Definition deleteTemplate (templateId : jsstring) : M Reply :=
  catch500
    (if negb (truthy templateId) then ret reply400
     else if existsb (fun b => str_eqb (js b) templateId) builtInTemplates
     then ret reply403
     else
       removeTemplate templateId ;;;
       ret reply200).

(** [router.post('/templates/create-custom', ...)], with the
    [templateConfig] of the request body. *)
Definition postCreateCustom (templateConfig : option TemplateConfig) : M Reply :=
  catch500
    (match templateConfig with
     | None => ret reply400
     | Some config =>
       createCustomTemplate config ;;;
       ret reply200
     end).

(** The replies of the two routes that render: the parsed content and the
    markup, or an error status. *)
Inductive Rendered (A : Type) : Type :=
| rendered : A -> Html -> Rendered A
| rendered400 : Rendered A
| rendered500 : Rendered A.
Arguments rendered {A} _ _.
Arguments rendered400 {A}.
Arguments rendered500 {A}.

(** [router.post('/manual-content', ...)], with the [content] and
    [template] of the request body; the handler marks the sections as
    [parseManualContent] does and renders what it marked. *)
Definition postManualContent (repository : Repository)
    (content : option ParsedContent) (template : option jsstring)
    : Rendered ManualContent :=
  match content with
  | None => rendered400
  | Some content =>
    let manualContent :=
      mkManualContent (title content) (markManual 0 (sections content)) in
    match applyTemplate repository (asParsedContent manualContent) template with
    | Ok htmlContent => rendered manualContent htmlContent
    | Throw _ => rendered500
    end
  end.

Section Mammoth.

Variable extractRawText : list N -> option jsstring.


End Mammoth.

End Routes.

(** ** Predicates of the further properties *)

Module Predicates.

Import DocumentParser TemplateRepository TemplateEngine.

(** Every registered template has a function as [selectTemplate]. *)
Definition callable (this : Repository) : Prop :=
  forall key t,
    getOwn (templates this) key = Some t ->
    exists f, selectTemplate t = Some (Function f).

(** A section of one of the three types the renderer has a block for. *)
Definition knownType (section : Section) : bool :=
  negb (SectionType_eqb (type section) type_other).

(** A synthesized caption: one code unit, a space and "图注". *)
Definition isPlaceholder (caption : jsstring) : bool :=
  match caption with
  | _ :: rest => str_eqb rest (js " 图注")
  | [] => false
  end.

(** The two image addresses of a caption block. *)
Definition captionSources (b : Block) : option (jsstring * jsstring) :=
  match b with
  | ImageWithCaptionBlock s1 _ s2 _ | CreativeImageWithCaptionBlock s1 _ s2 _ =>
    Some (s1, s2)
  | _ => None
  end.

(** [lines.join('\n')], the text whose lines are the given ones. *)
Fixpoint joinLines (lines : list jsstring) : jsstring :=
  match lines with
  | [] => []
  | [line] => line
  | line :: rest => line ++ [10%N] ++ joinLines rest
  end.

(** The string holds no line feed. *)
Definition oneLine (line : jsstring) : bool :=
  negb (existsb (fun c => char_eqb c 10%N) line).

End Predicates.

(** * Properties *)

Import DocumentParser TemplateRepository TemplateEngine Api.
Import ParseDocument Routes Predicates.

(** ** The matcher decides the match relation *)

Section Matcher.

Lemma Matches_Cat_inv r1 r2 s :
  Matches (Cat r1 r2) s ->
  exists s1 s2, s = s1 ++ s2 /\ Matches r1 s1 /\ Matches r2 s2.
Proof. intros H. inversion H; subst. eauto. Qed.

Lemma Matches_Alt_inv r1 r2 s :
  Matches (Alt r1 r2) s -> Matches r1 s \/ Matches r2 s.
Proof. intros H. inversion H; subst; auto. Qed.

Lemma Matches_Eps_inv s : Matches Eps s -> s = [].
Proof. intros H. now inversion H. Qed.

Lemma Matches_Fail_inv s : ~ Matches Fail s.
Proof. intros H. inversion H. Qed.

Lemma cat_Matches r1 r2 s : Matches (cat r1 r2) s <-> Matches (Cat r1 r2) s.
Proof.
  split.
  - intros H.
    destruct r1; try (cbn in H; now apply Matches_Fail_inv in H);
      destruct r2; cbn in H; try (now apply Matches_Fail_inv in H);
      try exact H;
      try (rewrite <- (app_nil_l s); apply MCat; [constructor | exact H]);
      try (rewrite <- (app_nil_r s); apply MCat; [exact H | constructor]).
  - intros H. apply Matches_Cat_inv in H. destruct H as (s1 & s2 & -> & H1 & H2).
    destruct r1; try (now apply Matches_Fail_inv in H1);
      destruct r2; try (now apply Matches_Fail_inv in H2); cbn;
      try (apply Matches_Eps_inv in H1; subst; exact H2);
      try (apply Matches_Eps_inv in H2; subst; rewrite app_nil_r; exact H1);
      now apply MCat.
Qed.

Lemma alt_Matches r1 r2 s : Matches (alt r1 r2) s <-> Matches (Alt r1 r2) s.
Proof.
  split.
  - intros H.
    destruct r1; try (cbn in H; now apply MAltR);
      destruct r2; cbn in H; try (now apply MAltL); exact H.
  - intros H. apply Matches_Alt_inv in H. destruct H as [H | H].
    + destruct r1; try (now apply Matches_Fail_inv in H);
        destruct r2; cbn; try exact H; now apply MAltL.
    + destruct r2; try (now apply Matches_Fail_inv in H);
        destruct r1; cbn; try exact H; now apply MAltR.
Qed.

Lemma nullable_Matches r : nullable r = true <-> Matches r [].
Proof.
  induction r as [| |p|r1 IH1 r2 IH2|r1 IH1 r2 IH2|r IH]; cbn.
  - split; [discriminate | intros H; inversion H].
  - split; [constructor | reflexivity].
  - split; [discriminate | intros H; inversion H].
  - rewrite andb_true_iff, IH1, IH2. split.
    + intros [H1 H2]. change (@nil jschar) with (@nil jschar ++ []).
      now apply MCat.
    + intros H. apply Matches_Cat_inv in H. destruct H as (s1 & s2 & Heq & H1 & H2).
      symmetry in Heq. apply app_eq_nil in Heq. destruct Heq; subst. auto.
  - rewrite orb_true_iff, IH1, IH2. split.
    + intros [H|H]; [now apply MAltL | now apply MAltR].
    + apply Matches_Alt_inv.
  - split; [constructor | reflexivity].
Qed.

(** A match of [Star r] that starts with [c] starts with a match of [r]
    that starts with [c]. *)
Lemma star_cons r c s :
  Matches (Star r) (c :: s) ->
  exists s1 s2, s = s1 ++ s2 /\ Matches r (c :: s1) /\ Matches (Star r) s2.
Proof.
  intros H. remember (Star r) as r' eqn:Hr. remember (c :: s) as cs eqn:Hcs.
  induction H as [| | | | | |r0 s1 s2 H1 _ H2 IH2]; try discriminate.
  inversion Hr; subst r0.
  destruct s1 as [|c1 s1].
  - cbn in Hcs. auto.
  - cbn in Hcs. inversion Hcs; subst. eauto.
Qed.

Lemma deriv_Matches c r : forall s, Matches (deriv c r) s <-> Matches r (c :: s).
Proof.
  induction r as [| |p|r1 IH1 r2 IH2|r1 IH1 r2 IH2|r IH]; intros s; cbn [deriv].
  - split; intros H; inversion H.
  - split; intros H; inversion H.
  - destruct (p c) eqn:Hp; split; intros H; inversion H; subst.
    + now constructor.
    + constructor.
    + congruence.
  - assert (Hcat : Matches (cat (deriv c r1) r2) s
                   <-> exists s1 s2, s = s1 ++ s2 /\ Matches r1 (c :: s1)
                                     /\ Matches r2 s2).
    { rewrite cat_Matches. split.
      - intros H. apply Matches_Cat_inv in H.
        destruct H as (s1 & s2 & -> & H1 & H2).
        exists s1, s2. rewrite <- IH1. auto.
      - intros (s1 & s2 & -> & H1 & H2). apply MCat; [now apply IH1 | exact H2]. }
    assert (Hsplit : Matches (Cat r1 r2) (c :: s)
                     <-> (exists s1 s2, s = s1 ++ s2 /\ Matches r1 (c :: s1)
                                        /\ Matches r2 s2)
                         \/ (Matches r1 [] /\ Matches r2 (c :: s))).
    { split.
      - intros H. apply Matches_Cat_inv in H.
        destruct H as (s1 & s2 & Heq & H1 & H2).
        destruct s1 as [|c1 s1]; cbn in Heq.
        + subst. auto.
        + inversion Heq; subst. left. eauto.
      - intros [(s1 & s2 & -> & H1 & H2) | [H1 H2]].
        + change (c :: s1 ++ s2) with ((c :: s1) ++ s2). now apply MCat.
        + change (c :: s) with ([] ++ c :: s). now apply MCat. }
    rewrite Hsplit. destruct (nullable r1) eqn:Hnull.
    + rewrite alt_Matches. apply nullable_Matches in Hnull. split.
      * intros H. apply Matches_Alt_inv in H.
        destruct H as [H | H]; [left; now apply Hcat|].
        right. split; [exact Hnull | now apply IH2].
      * intros [H | [_ H]]; [apply MAltL; now apply Hcat|].
        apply MAltR. now apply IH2.
    + rewrite Hcat. split; [auto|]. intros [H | [H _]]; [exact H|].
      apply nullable_Matches in H. congruence.
  - rewrite alt_Matches. split.
    + intros H. apply Matches_Alt_inv in H.
      destruct H; [apply MAltL; now apply IH1 | apply MAltR; now apply IH2].
    + intros H. apply Matches_Alt_inv in H.
      destruct H; [apply MAltL; now apply IH1 | apply MAltR; now apply IH2].
  - rewrite cat_Matches. split.
    + intros H. apply Matches_Cat_inv in H.
      destruct H as (s1 & s2 & -> & H1 & H2).
      change (c :: s1 ++ s2) with ((c :: s1) ++ s2).
      apply MStarApp; [now apply IH | exact H2].
    + intros H. apply star_cons in H. destruct H as (s1 & s2 & -> & H1 & H2).
      apply MCat; [now apply IH | exact H2].
Qed.

Theorem fullMatch_Matches r s : fullMatch r s = true <-> Matches r s.
Proof.
  revert r. induction s as [|c s IH]; intros r; cbn [fullMatch].
  - apply nullable_Matches.
  - rewrite IH. apply deriv_Matches.
Qed.

Lemma anyUnit_star s : Matches (Star anyUnit) s.
Proof.
  induction s as [|c s IH]; [constructor|].
  change (c :: s) with ([c] ++ s). apply MStarApp; [now constructor | exact IH].
Qed.

(** [test] holds exactly when some part of the string matches the body,
    at the start of the string under [^] and at its end under [$]. *)
Theorem test_Matches p s :
  test p s = true <->
  exists before found after,
    s = before ++ found ++ after
    /\ Matches (body p) found
    /\ (anchoredStart p = true -> before = [])
    /\ (anchoredEnd p = true -> after = []).
Proof.
  unfold test. rewrite fullMatch_Matches. split.
  - intros H. apply Matches_Cat_inv in H. destruct H as (s1 & s23 & -> & H1 & H23).
    apply Matches_Cat_inv in H23. destruct H23 as (s2 & s3 & -> & H2 & H3).
    exists s1, s2, s3. split; [reflexivity|]. split; [exact H2|]. split.
    + intros Ha. rewrite Ha in H1. now apply Matches_Eps_inv.
    + intros Ha. rewrite Ha in H3. now apply Matches_Eps_inv.
  - intros (s1 & s2 & s3 & -> & H2 & Hs & He).
    apply MCat; [|apply MCat; [exact H2|]].
    + destruct (anchoredStart p); [rewrite Hs by reflexivity; constructor|].
      apply anyUnit_star.
    + destruct (anchoredEnd p); [rewrite He by reflexivity; constructor|].
      apply anyUnit_star.
Qed.

End Matcher.

(** ** The paragraph classifier *)

Section Classifier.

Lemma str_eqb_nil_false (s : jsstring) : s <> [] -> str_eqb s [] = false.
Proof. destruct s; [congruence | reflexivity]. Qed.

Lemma orElse_nil (s : jsstring) : orElse s [] = s.
Proof. destruct s; reflexivity. Qed.

(** Every image rule returns the text it was given as the caption. *)
Lemma isImagePlaceholder_caption (text : jsstring) :
  isImage (_isImagePlaceholder text) = true ->
  caption (_isImagePlaceholder text) = text.
Proof.
  unfold _isImagePlaceholder; cbv zeta.
  repeat match goal with
         | |- context [if ?b then _ else _] => destruct b
         end; cbn [isImage caption]; congruence.
Qed.

Lemma analyzeLoop_step (p : jsstring) rest sections pos :
  trim p <> [] ->
  analyzeLoop (p :: rest) sections pos =
  analyzeLoop rest (sections ++ [classified (trim p) sections pos]) (pos + 1).
Proof.
  intros Hp. cbn [analyzeLoop]. cbv zeta.
  rewrite (str_eqb_nil_false _ Hp). unfold classified.
  destruct (isImage (_isImagePlaceholder (trim p))) eqn:Himg.
  - rewrite (isImagePlaceholder_caption _ Himg), orElse_nil. reflexivity.
  - destruct (_isSubtitle (trim p) sections); reflexivity.
Qed.

Lemma classified_position paragraph sections pos :
  position (classified paragraph sections pos) = pos.
Proof.
  unfold classified.
  destruct (isImage _); [reflexivity|]. destruct (_isSubtitle _ _); reflexivity.
Qed.

(** The loop only ever appends to [sections]. *)
Lemma analyzeLoop_extends rest : forall sections pos,
  exists new, analyzeLoop rest sections pos = sections ++ new.
Proof.
  induction rest as [|p rest IH]; intros sections pos.
  - exists []. cbn. now rewrite app_nil_r.
  - cbn [analyzeLoop]. cbv zeta.
    repeat match goal with
           | |- context [if ?b then _ else _] => destruct b
           end;
    try apply IH;
    match goal with
    | |- context [analyzeLoop rest (sections ++ [?s]) ?q] =>
      destruct (IH (sections ++ [s]) q) as [new ->];
      exists (s :: new); now rewrite <- app_assoc
    end.
Qed.

Lemma analyzeLoop_nonblank rest : forall sections pos,
  Forall (fun p => trim p <> []) rest ->
  exists new,
    analyzeLoop rest sections pos = sections ++ new
    /\ List.length new = List.length rest
    /\ List.map position new =
       List.map (fun i => (pos + Z.of_nat i)%Z) (seq 0 (List.length rest)).
Proof.
  induction rest as [|p rest IH]; intros sections pos Hall.
  - exists []. cbn. now rewrite app_nil_r.
  - inversion Hall as [|? ? Hp Hrest]; subst.
    rewrite (analyzeLoop_step _ _ _ _ Hp).
    destruct (IH (sections ++ [classified (trim p) sections pos]) (pos + 1)%Z Hrest)
      as (new & Heq & Hlen & Hpos).
    exists (classified (trim p) sections pos :: new).
    rewrite Heq, <- app_assoc. split; [reflexivity|]. split.
    + cbn. now rewrite Hlen.
    + cbn [List.map List.length seq]. rewrite classified_position, Hpos.
      f_equal; [lia|]. rewrite <- seq_shift, map_map.
      apply map_ext. intros i. lia.
Qed.

Lemma analyzeLoop_app before : forall rest sections pos,
  Forall (fun p => trim p <> []) before ->
  analyzeLoop (before ++ rest) sections pos =
  analyzeLoop rest (analyzeLoop before sections pos)
              (pos + Z.of_nat (List.length before)).
Proof.
  induction before as [|p before IH]; intros rest sections pos Hall.
  - cbn. f_equal. lia.
  - inversion Hall as [|? ? Hp Hrest]; subst.
    rewrite <- app_comm_cons, !(analyzeLoop_step _ _ _ _ Hp), (IH _ _ _ Hrest).
    f_equal. cbn [List.length]. lia.
Qed.

End Classifier.

(** C1: for a paragraph list whose entries after the title are not blank
    (in particular non-empty and trimmed), [_analyzeContentStructure]
    returns as many sections as there are such entries, and their
    [position] fields are 1, 2, ..., n in output order. *)
Theorem analyzeContentStructure_length_positions :
  forall (title : jsstring) (paragraphs : list jsstring),
    Forall (fun p => trim p <> []) paragraphs ->
    List.length (_analyzeContentStructure (title :: paragraphs))
      = List.length paragraphs
    /\ List.map position (_analyzeContentStructure (title :: paragraphs))
      = List.map Z.of_nat (seq 1 (List.length paragraphs)).
Proof.
  intros title paragraphs Hall. unfold _analyzeContentStructure. cbn [tl].
  destruct (analyzeLoop_nonblank paragraphs [] 1%Z Hall) as (new & Heq & Hlen & Hpos).
  rewrite Heq. cbn [app]. split; [exact Hlen|].
  rewrite Hpos, <- seq_shift, map_map. apply map_ext. intros i. lia.
Qed.

Lemma analyzeContentStructure_length_positions_witness :
  Forall (fun p => trim p <> []) [js "核心提示："; js "图 3"; js "正文。"]
  /\ List.map position
       (_analyzeContentStructure [js "标题"; js "核心提示："; js "图 3"; js "正文。"])
     = [1; 2; 3]%Z.
Proof.
  split.
  - repeat constructor; vm_compute; discriminate.
  - apply (analyzeContentStructure_length_positions (js "标题")
             [js "核心提示："; js "图 3"; js "正文。"]).
    repeat constructor; vm_compute; discriminate.
Defined.

(** C9: a paragraph that matches an image rule and that the subtitle
    heuristic would accept as well is classified as an image: the image
    check comes first and the first match wins.  The section stands at the
    paragraph's place in the output and keeps the paragraph as caption. *)
Theorem image_rules_take_precedence :
  forall (title : jsstring) (before after : list jsstring) (p : jsstring),
    Forall (fun q => trim q <> []) before ->
    isImage (_isImagePlaceholder (trim p)) = true ->
    _isSubtitle (trim p) (_analyzeContentStructure (title :: before)) = true ->
    nth_error (_analyzeContentStructure (title :: before ++ p :: after))
              (List.length before)
    = Some (mkSection type_image (trim p) (Z.of_nat (List.length before) + 1)).
Proof.
  intros title before after p Hbefore Himg _.
  assert (Hp : trim p <> []).
  { intros Hnil. rewrite Hnil in Himg. vm_compute in Himg. discriminate. }
  unfold _analyzeContentStructure. cbn [tl].
  rewrite (analyzeLoop_app _ _ _ _ Hbefore), (analyzeLoop_step _ _ _ _ Hp).
  destruct (analyzeLoop_nonblank before [] 1%Z Hbefore) as (new & Heq & Hlen & _).
  rewrite Heq. cbn [app].
  match goal with
  | |- context [analyzeLoop after ?secs ?q] =>
    destruct (analyzeLoop_extends after secs q) as [more ->]
  end.
  rewrite <- app_assoc, nth_error_app2 by lia.
  rewrite Hlen, Nat.sub_diag. cbn [app nth_error].
  unfold classified. rewrite Himg. do 2 f_equal. lia.
Qed.

Lemma image_rules_take_precedence_witness :
  Forall (fun q => trim q <> []) [js "正文第一段。"]
  /\ isImage (_isImagePlaceholder (trim (js "[图片]活动介绍"))) = true
  /\ _isSubtitle (trim (js "[图片]活动介绍"))
       (_analyzeContentStructure [js "标题"; js "正文第一段。"]) = true
  /\ nth_error (_analyzeContentStructure
                  [js "标题"; js "正文第一段。"; js "[图片]活动介绍"; js "结尾。"]) 1
     = Some (mkSection type_image (js "[图片]活动介绍") 2).
Proof.
  split; [repeat constructor; vm_compute; discriminate|].
  split; [vm_compute; reflexivity|].
  split; [vm_compute; reflexivity|].
  apply (image_rules_take_precedence (js "标题") [js "正文第一段。"] [js "结尾。"]
           (js "[图片]活动介绍")).
  - repeat constructor; vm_compute; discriminate.
  - vm_compute; reflexivity.
  - vm_compute; reflexivity.
Defined.



(** ** The caption blocks of the renderer *)

Section CaptionBlocks.

Variable templateId : option jsstring.
Variable imageCaptions : list jsstring.

(** Under the with-caption layout, the caption blocks of the markup are
    those of the image sections, taken in order: the image index advances
    by 2 and the caption cursor by 2 at each of them, and no other section
    touches either. *)
Lemma fold_captionBlocks (sections : list Section) : forall st : Loop,
  filter isCaptionBlock
    (html (fold_left (processSection double_image_with_caption templateId
                        imageCaptions) sections st))
  = filter isCaptionBlock (html st)
    ++ captionBlocks templateId imageCaptions
         (List.length (filter isImageSection sections))
         (imageIndex st) (captionIndex st).
Proof.
  induction sections as [|s sections IH]; intros st.
  - cbn. now rewrite app_nil_r.
  - cbn [fold_left filter]. rewrite IH. unfold processSection.
    assert (Himg : isImageSection s = SectionType_eqb (type s) type_image)
      by reflexivity.
    rewrite Himg.
    destruct (type s); cbn [SectionType_eqb html imageIndex captionIndex
                            List.length captionBlocks].
    + rewrite filter_app.
      destruct (isCreative templateId); cbn; now rewrite app_nil_r.
    + rewrite filter_app.
      destruct (isCreative templateId); cbn; now rewrite app_nil_r.
    + rewrite filter_app.
      rewrite <- app_assoc. f_equal.
      unfold captionBlock, _getCreativeImageWithCaptionBlock,
        _getImageWithCaptionBlock.
      destruct (captionHoles _ _ _) as [[s1 d1] [s2 d2]].
      destruct (isCreative templateId); cbn [filter isCaptionBlock app];
        do 2 f_equal; lia.
    + reflexivity.
Qed.

End CaptionBlocks.

Lemma captionSlots_filter (h : Html) :
  captionSlots (filter isCaptionBlock h) = captionSlots h.
Proof.
  induction h as [|b h IH]; [reflexivity|].
  destruct b; cbn; rewrite ?IH; reflexivity.
Qed.

Lemma processContentSections_captionBlocks sections templateId :
  filter isCaptionBlock
    (_processContentSections sections double_image_with_caption templateId)
  = captionBlocks templateId (List.map content (filter isImageSection sections))
      (List.length (filter isImageSection sections)) 1 0.
Proof.
  unfold _processContentSections. now rewrite fold_captionBlocks.
Qed.

Lemma image_captions_count sections (captions : list jsstring) :
  List.map content (filter isImageSection sections) = captions ->
  List.length (filter isImageSection sections) = List.length captions.
Proof. intros <-. now rewrite length_map. Qed.

(** C2: when the image sections of a document carry the captions c1, c2,
    c3, c4 in document order, whatever stands between them, the
    with-caption layout passes (c1, c2) to the caption block of the first
    image section and (c3, c4) to that of the second; the blocks of the
    third and fourth image sections get no caption at all, so every
    caption fills one slot only. *)
Theorem captions_consumed_in_pairs :
  forall (sections : list Section) (templateId : option jsstring)
         (c1 c2 c3 c4 : jsstring),
    List.map content (filter isImageSection sections) = [c1; c2; c3; c4] ->
    filter isCaptionBlock
      (_processContentSections sections double_image_with_caption templateId)
    = captionBlock templateId 1 c1 c2 ++ captionBlock templateId 3 c3 c4
      ++ captionBlock templateId 5 [] [] ++ captionBlock templateId 7 [] []
    /\ captionSlots
         (_processContentSections sections double_image_with_caption templateId)
       = [ orElse c1 (js "① 图注"); orElse c2 (js "② 图注");
           orElse c3 (js "③ 图注"); orElse c4 (js "② 图注");
           js "⑤ 图注"; js "② 图注"; js "⑦ 图注"; js "② 图注" ].
Proof.
  intros sections templateId c1 c2 c3 c4 Hcaptions.
  assert (Hblocks :
    filter isCaptionBlock
      (_processContentSections sections double_image_with_caption templateId)
    = captionBlock templateId 1 c1 c2 ++ captionBlock templateId 3 c3 c4
      ++ captionBlock templateId 5 [] [] ++ captionBlock templateId 7 [] []).
  { rewrite processContentSections_captionBlocks,
      (image_captions_count _ _ Hcaptions), Hcaptions.
    cbn [List.length captionBlocks]. rewrite app_nil_r. reflexivity. }
  split; [exact Hblocks|].
  rewrite <- captionSlots_filter, Hblocks. unfold captionBlock.
  destruct (isCreative templateId); reflexivity.
Qed.

Lemma captions_consumed_in_pairs_witness :
  List.map content
    (filter isImageSection
       [ mkSection type_image (js "c1") 1; mkSection type_text (js "正文。") 2;
         mkSection type_image (js "c2") 3; mkSection type_image (js "c3") 4;
         mkSection type_subtitle (js "小结") 5; mkSection type_image (js "c4") 6 ])
    = [js "c1"; js "c2"; js "c3"; js "c4"]
  /\ captionSlots
       (_processContentSections
          [ mkSection type_image (js "c1") 1; mkSection type_text (js "正文。") 2;
            mkSection type_image (js "c2") 3; mkSection type_image (js "c3") 4;
            mkSection type_subtitle (js "小结") 5; mkSection type_image (js "c4") 6 ]
          double_image_with_caption (Some (js "education")))
     = [ js "c1"; js "c2"; js "c3"; js "c4";
         js "⑤ 图注"; js "② 图注"; js "⑦ 图注"; js "② 图注" ].
Proof.
  split; [reflexivity|].
  apply (captions_consumed_in_pairs
           [ mkSection type_image (js "c1") 1; mkSection type_text (js "正文。") 2;
             mkSection type_image (js "c2") 3; mkSection type_image (js "c3") 4;
             mkSection type_subtitle (js "小结") 5; mkSection type_image (js "c4") 6 ]
           (Some (js "education")) (js "c1") (js "c2") (js "c3") (js "c4")).
  reflexivity.
Defined.

(** C7, amended: when the document has exactly one image
    section, with caption c, the with-caption layout emits exactly one
    two-image block; its first slot shows c (the placeholder "① 图注" only
    when c is empty) and its second slot shows the placeholder "② 图注". *)
Theorem single_image_caption_slots :
  forall (sections : list Section) (templateId : option jsstring) (c : jsstring),
    List.map content (filter isImageSection sections) = [c] ->
    filter isCaptionBlock
      (_processContentSections sections double_image_with_caption templateId)
    = captionBlock templateId 1 c []
    /\ captionSlots
         (_processContentSections sections double_image_with_caption templateId)
       = [orElse c (js "① 图注"); js "② 图注"].
Proof.
  intros sections templateId c Hcaptions.
  assert (Hblocks :
    filter isCaptionBlock
      (_processContentSections sections double_image_with_caption templateId)
    = captionBlock templateId 1 c []).
  { rewrite processContentSections_captionBlocks,
      (image_captions_count _ _ Hcaptions), Hcaptions.
    cbn [List.length captionBlocks]. rewrite app_nil_r. reflexivity. }
  split; [exact Hblocks|].
  rewrite <- captionSlots_filter, Hblocks. unfold captionBlock.
  destruct (isCreative templateId); reflexivity.
Qed.

Lemma single_image_caption_slots_witness :
  List.map content
    (filter isImageSection
       [ mkSection type_subtitle (js "活动介绍") 1;
         mkSection type_image (js "图1 合影") 2;
         mkSection type_text (js "正文。") 3 ])
    = [js "图1 合影"]
  /\ captionSlots
       (_processContentSections
          [ mkSection type_subtitle (js "活动介绍") 1;
            mkSection type_image (js "图1 合影") 2;
            mkSection type_text (js "正文。") 3 ]
          double_image_with_caption (Some (js "creative")))
     = [js "图1 合影"; js "② 图注"].
Proof.
  split; [reflexivity|].
  apply (single_image_caption_slots
           [ mkSection type_subtitle (js "活动介绍") 1;
             mkSection type_image (js "图1 合影") 2;
             mkSection type_text (js "正文。") 3 ]
           (Some (js "creative")) (js "图1 合影")).
  reflexivity.
Defined.

(** C7, counterexample: with a single captioned image section, the
    section's own caption fills the first slot; only the second slot gets
    a placeholder. *)
Lemma single_image_first_slot_keeps_caption :
  List.length (filter isImageSection [mkSection type_image (js "图1 合影") 1]) = 1%nat
  /\ captionSlots
       (_processContentSections [mkSection type_image (js "图1 合影") 1]
          double_image_with_caption (Some (js "custom")))
     = [js "图1 合影"; js "② 图注"]
  /\ js "图1 合影" <> js "① 图注".
Proof.
  repeat split; vm_compute; congruence.
Qed.

(** C3, at a document with two captioned images under the education
    template (which selects the with-caption layout for two images): the
    second block has image index 3 and no caption left, and its
    placeholders are numbered ③ and ②, not ③ and ④: the number of the
    second slot is [0x2460 + startIndex % 2], which is ② for every odd
    index. *)
Theorem second_block_placeholders :
  exists h : Html,
    applyTemplate constructor
      (mkParsedContent (js "标题")
         [mkSection type_image (js "图1 校门") 1;
          mkSection type_image (js "图2 操场") 2])
      (Some (js "education")) = Ok h
    /\ captionSlots h = [js "图1 校门"; js "图2 操场"; js "③ 图注"; js "② 图注"]
    /\ captionNumber2 3 = circled 2
    /\ captionNumber2 3 <> circled 4.
Proof.
  eexists. split; [|split; [|split]].
  - lazy. reflexivity.
  - vm_compute. reflexivity.
  - vm_compute. reflexivity.
  - vm_compute. discriminate.
Qed.

Section PlaceholderNumbers.

(** The image index of the k-th image section is 2k-1 and its caption
    cursor 2k-2, counting from k = 1. *)
Lemma captionBlocks_nth templateId imageCaptions (j : nat) : forall (n : nat) (i k : Z),
  (j < n)%nat ->
  captionBlocks templateId imageCaptions n i k
  = captionBlocks templateId imageCaptions j i k
    ++ captionBlock templateId (i + 2 * Z.of_nat j)
         (captionAt imageCaptions (k + 2 * Z.of_nat j))
         (captionAt imageCaptions (k + 2 * Z.of_nat j + 1))
    ++ captionBlocks templateId imageCaptions (n - j - 1)
         (i + 2 * Z.of_nat j + 2) (k + 2 * Z.of_nat j + 2).
Proof.
  induction j as [|j IH]; intros n i k Hlt.
  - destruct n as [|n]; [lia|]. cbn [captionBlocks app Z.of_nat].
    replace (S n - 0 - 1)%nat with n by lia.
    now rewrite !Z.mul_0_r, !Z.add_0_r.
  - destruct n as [|n]; [lia|]. cbn [captionBlocks].
    rewrite (IH n (i + 2)%Z (k + 2)%Z) by lia. rewrite <- app_assoc.
    replace (S n - S j - 1)%nat with (n - j - 1)%nat by lia.
    replace (i + 2 + 2 * Z.of_nat j)%Z with (i + 2 * Z.of_nat (S j))%Z by lia.
    replace (k + 2 + 2 * Z.of_nat j)%Z with (k + 2 * Z.of_nat (S j))%Z by lia.
    reflexivity.
Qed.

(** The first placeholder of the k-th block is the circled number 2k-1
    (while the code unit stays below 2^16). *)
Lemma captionNumber1_odd (k : Z) :
  (1 <= k <= 28000)%Z -> captionNumber1 (2 * k - 1) = circled (2 * k - 1).
Proof.
  intros Hk. unfold captionNumber1, circled, fromCharCode.
  rewrite Z.mod_small by lia. reflexivity.
Qed.

(** The second placeholder of every block is the circled number 2. *)
Lemma captionNumber2_odd (k : Z) :
  (1 <= k)%Z -> captionNumber2 (2 * k - 1) = circled 2.
Proof.
  intros Hk. unfold captionNumber2, circled, fromCharCode.
  cbn [imageSources List.length Z.of_nat Pos.of_succ_nat Pos.succ].
  replace (2 * k - 1)%Z with (1 + (k - 1) * 2)%Z by lia.
  rewrite Z.rem_add by lia. reflexivity.
Qed.

End PlaceholderNumbers.

(** ** Template selection *)

(** What calling the [selectTemplate] of the template registered under
    [key] returns. *)
Lemma builtIn_business :
  getTemplateById constructor (js "business")
  = VTemplate (snd (builtIn "business" "商务风格" "适用于商务类文章的模板风格"
                      _selectBusinessTemplate)).
Proof. reflexivity. Qed.

Lemma builtIn_simple :
  getTemplateById constructor (js "simple")
  = VTemplate (snd (builtIn "simple" "简约风格" "简洁明了的文章模板风格"
                      _selectSimpleTemplate)).
Proof. reflexivity. Qed.

Lemma builtIn_education :
  getTemplateById constructor (js "education")
  = VTemplate (snd (builtIn "education" "教育风格" "适用于教育类文章的模板风格"
                      _selectEducationTemplate)).
Proof. reflexivity. Qed.

Lemma builtIn_creative :
  getTemplateById constructor (js "creative")
  = VTemplate (snd (builtIn "creative" "创意风格" "富有创意设计感的文章模板风格"
                      _selectCreativeTemplate)).
Proof. reflexivity. Qed.

(** C8: the selection functions of the four built-in templates, as
    registered by the constructor, depend on the image count only, by the
    table: business and creative give single-image for 0, with-caption for
    1 and 2, no-caption from 3 on; simple gives single-image always;
    education gives single-image for 0 and 1 and with-caption from 2 on. *)
Theorem builtIn_selection_table :
  forall imageCount : nat,
    let select key :=
      callSelectTemplate (getTemplateById constructor (js key))
                         (Z.of_nat imageCount) in
    select "business"
      = Ok (match imageCount with
            | 0 => single_image
            | 1 | 2 => double_image_with_caption
            | _ => double_image_no_caption
            end)
    /\ select "simple" = Ok single_image
    /\ select "education"
      = Ok (match imageCount with
            | 0 | 1 => single_image
            | _ => double_image_with_caption
            end)
    /\ select "creative"
      = Ok (match imageCount with
            | 0 => single_image
            | 1 | 2 => double_image_with_caption
            | _ => double_image_no_caption
            end).
Proof.
  intros imageCount select. unfold select.
  rewrite builtIn_business, builtIn_simple, builtIn_education, builtIn_creative.
  cbn [callSelectTemplate builtIn snd selectTemplate].
  unfold _selectBusinessTemplate, _selectSimpleTemplate,
    _selectEducationTemplate, _selectCreativeTemplate.
  destruct imageCount as [|[|[|n]]]; try (repeat split; reflexivity).
  assert (H3 : (3 <= Z.of_nat (S (S (S n))))%Z) by lia.
  revert H3. generalize (Z.of_nat (S (S (S n)))). intros z Hz.
  replace (z <=? 2)%Z with false by (symmetry; apply Z.leb_gt; lia).
  replace (z <=? 1)%Z with false by (symmetry; apply Z.leb_gt; lia).
  replace (3 <=? z)%Z with true by (symmetry; apply Z.leb_le; lia).
  replace (2 <=? z)%Z with true by (symmetry; apply Z.leb_le; lia).
  rewrite !andb_false_r. repeat split; reflexivity.
Qed.

(** ** Applying a template *)

(** C10: [applyTemplate] with a non-empty template id that names no
    registered template throws, although a usable default template is at
    hand; the default template is what renders when the id is left out or
    is the empty string. *)
Theorem applyTemplate_unknown_id_throws :
  forall (repository : Repository) (content : ParsedContent)
         (templateId d : jsstring) (t : Template) (f : Z -> LayoutType),
    truthy templateId = true ->
    getOwn (templates repository) templateId = None ->
    defaultTemplate repository = Some d ->
    getOwn (templates repository) d = Some t ->
    selectTemplate t = Some (Function f) ->
    let imageCount :=
      Z.of_nat (List.length (filter isImageSection (sections content))) in
    applyTemplate repository content (Some templateId)
      = Throw (ApplyFailed TypeError)
    /\ applyTemplate repository content None
      = Ok (_generateHTML content (f imageCount) (id t))
    /\ applyTemplate repository content (Some [])
      = Ok (_generateHTML content (f imageCount) (id t)).
Proof.
  intros repository content templateId d t f Hid Habsent Hd Ht Hf imageCount.
  unfold applyTemplate, getTemplateById, getDefaultTemplate, getProp.
  cbn [truthyOpt truthy propertyKey]. rewrite Hid, Habsent, Hd.
  cbn [propertyKey]. rewrite Ht.
  cbn [callSelectTemplate templateIdOf]. rewrite Hf.
  split; [|split; reflexivity].
  destruct (isInherited templateId); reflexivity.
Qed.

Lemma applyTemplate_unknown_id_throws_witness :
  truthy (js "magazine") = true
  /\ getOwn (templates constructor) (js "magazine") = None
  /\ applyTemplate constructor
       (mkParsedContent (js "标题") [mkSection type_text (js "正文。") 1])
       (Some (js "magazine"))
     = Throw (ApplyFailed TypeError).
Proof.
  split; [reflexivity|]. split; [reflexivity|].
  apply (applyTemplate_unknown_id_throws constructor
           (mkParsedContent (js "标题") [mkSection type_text (js "正文。") 1])
           (js "magazine") (js "business")
           (snd (builtIn "business" "商务风格" "适用于商务类文章的模板风格"
                   _selectBusinessTemplate))
           _selectBusinessTemplate); reflexivity.
Defined.

(** ** The template repository *)

Section RepositoryFacts.

Lemma str_eqb_eq (s t : jsstring) : str_eqb s t = true <-> s = t.
Proof.
  revert t. induction s as [|a s IH]; intros [|b t]; cbn; try (split; congruence).
  rewrite andb_true_iff, IH. unfold char_eqb. rewrite N.eqb_eq.
  split; [intros [-> ->]; reflexivity | intros H; inversion H; auto].
Qed.

Lemma str_eqb_refl (s : jsstring) : str_eqb s s = true.
Proof. now apply str_eqb_eq. Qed.

Lemma getOwn_In props key t :
  getOwn props key = Some t -> In key (List.map fst props).
Proof.
  induction props as [|[k v] props IH]; cbn; [discriminate|].
  destruct (str_eqb k key) eqn:E; [|auto].
  apply str_eqb_eq in E. auto.
Qed.

Lemma In_getOwn props key :
  In key (List.map fst props) -> exists t, getOwn props key = Some t.
Proof.
  induction props as [|[k v] props IH]; cbn; [tauto|].
  intros [-> | Hin].
  - rewrite str_eqb_refl. eauto.
  - destruct (str_eqb k key); eauto.
Qed.

Lemma getOwn_None_notIn props key :
  getOwn props key = None -> ~ In key (List.map fst props).
Proof.
  intros Hnone Hin. destruct (In_getOwn _ _ Hin) as [t Ht]. congruence.
Qed.

(** Writing a property. *)
Lemma setOwn_keys_absent props key t :
  getOwn props key = None ->
  List.map fst (setOwn props key t) = List.map fst props ++ [key].
Proof.
  induction props as [|[k v] props IH]; cbn; [reflexivity|].
  destruct (str_eqb k key); [discriminate|].
  intros H. cbn. now rewrite IH.
Qed.

Lemma getOwn_setOwn props key t key' :
  getOwn (setOwn props key t) key'
  = if str_eqb key key' then Some t else getOwn props key'.
Proof.
  induction props as [|[k v] props IH]; cbn.
  - reflexivity.
  - destruct (str_eqb k key) eqn:E; cbn.
    + apply str_eqb_eq in E. subst k. destruct (str_eqb key key'); reflexivity.
    + rewrite IH. destruct (str_eqb k key') eqn:E'; [|reflexivity].
      destruct (str_eqb key key') eqn:E''; [|reflexivity].
      apply str_eqb_eq in E', E''. subst. rewrite str_eqb_refl in E. discriminate.
Qed.

(** Deleting a property. *)
Lemma deleteOwn_absent props key :
  getOwn props key = None -> deleteOwn props key = props.
Proof.
  unfold deleteOwn.
  induction props as [|[k v] props IH]; cbn; [reflexivity|].
  destruct (str_eqb k key); [discriminate|].
  intros H. cbn. now rewrite IH.
Qed.

Lemma getOwn_deleteOwn props key key' :
  getOwn (deleteOwn props key) key'
  = if str_eqb key key' then None else getOwn props key'.
Proof.
  unfold deleteOwn.
  induction props as [|[k v] props IH]; cbn.
  - now destruct (str_eqb key key').
  - destruct (str_eqb k key) eqn:E; cbn.
    + apply str_eqb_eq in E. subst k. rewrite IH.
      now destruct (str_eqb key key').
    + rewrite IH. destruct (str_eqb k key') eqn:E'; [|reflexivity].
      destruct (str_eqb key key') eqn:E''; [|reflexivity].
      apply str_eqb_eq in E', E''. subst. rewrite str_eqb_refl in E. discriminate.
Qed.

Lemma deleteOwn_keys props key :
  List.map fst (deleteOwn props key)
  = filter (fun k => negb (str_eqb k key)) (List.map fst props).
Proof.
  unfold deleteOwn.
  induction props as [|[k v] props IH]; cbn; [reflexivity|].
  destruct (str_eqb k key); cbn; now rewrite IH.
Qed.

(** An object that owns [key] and one more key keeps a key when [key] is
    deleted. *)
Lemma deleteOwn_leaves props key :
  NoDup (List.map fst props) ->
  (2 <= List.length props)%nat ->
  deleteOwn props key <> [].
Proof.
  intros Hnd Hlen Hnil.
  assert (Hall : forall k, In k (List.map fst props) -> k = key).
  { intros k Hin. destruct (str_eqb k key) eqn:E; [now apply str_eqb_eq|].
    assert (Hk : In k (List.map fst (deleteOwn props key))).
    { rewrite deleteOwn_keys. apply filter_In. now rewrite E. }
    rewrite Hnil in Hk. destruct Hk. }
  destruct props as [|[k1 v1] [|[k2 v2] props]]; cbn in Hlen; try lia.
  cbn in Hnd, Hall. inversion Hnd as [|? ? Hnotin _]; subst.
  apply Hnotin. left. rewrite (Hall k1), (Hall k2); auto.
Qed.

(** [Object.keys] lists every own key once. *)
Lemma insertIndex_In n key sorted x :
  In x (insertIndex n key sorted) <-> x = (n, key) \/ In x sorted.
Proof.
  induction sorted as [|[m k] sorted IH]; cbn.
  - intuition.
  - destruct (n <=? m)%N; cbn; [intuition|]. rewrite IH. intuition.
Qed.

Lemma insertIndex_length n key sorted :
  List.length (insertIndex n key sorted) = S (List.length sorted).
Proof.
  induction sorted as [|[m k] sorted IH]; cbn; [reflexivity|].
  destruct (n <=? m)%N; cbn; now rewrite ?IH.
Qed.

Lemma indexKeys_In keys x : In x (indexKeys keys) -> In (snd x) keys.
Proof.
  induction keys as [|k keys IH]; cbn; [tauto|].
  destruct (arrayIndex k); [|auto].
  rewrite insertIndex_In. intros [-> | Hin]; cbn; auto.
Qed.

Lemma objectKeys_In props key :
  In key (objectKeys props) -> In key (List.map fst props).
Proof.
  unfold objectKeys. rewrite in_app_iff, in_map_iff, filter_In.
  intros [[x [<- Hin]] | [Hin _]]; [now apply indexKeys_In | exact Hin].
Qed.

Lemma objectKeys_length props :
  List.length (objectKeys props) = List.length props.
Proof.
  unfold objectKeys. rewrite length_app, length_map.
  rewrite <- (length_map fst props).
  induction (List.map fst props) as [|k keys IH]; cbn; [reflexivity|].
  unfold isNamedKey at 1.
  destruct (arrayIndex k); cbn; rewrite ?insertIndex_length; lia.
Qed.

End RepositoryFacts.

Section RepositoryMethods.

Lemma bind_get {A : Type} (k : Repository -> M A) this :
  bind get k this = k this this.
Proof. reflexivity. Qed.

Lemma bind_ret {A B : Type} (a : A) (k : A -> M B) this :
  bind (ret a) k this = k a this.
Proof. reflexivity. Qed.

Lemma bind_throw {A B : Type} (e : Error) (k : A -> M B) this :
  bind (throw e) k this = (Throw e, this).
Proof. reflexivity. Qed.

Lemma setDefaultTemplate_unfold templateId this :
  setDefaultTemplate templateId this
  = (Ok tt,
     if truthyValue (getProp (templates this) templateId)
     then mkRepository (templates this) (Some templateId)
     else this).
Proof.
  unfold setDefaultTemplate, bind, get, put, ret.
  destruct (truthyValue _); reflexivity.
Qed.

Lemma invariant_registered this :
  invariant this = true ->
  templates this <> []
  /\ exists d, defaultTemplate this = Some d /\ registered this d = true.
Proof.
  unfold invariant. destruct (templates this); [discriminate|].
  destruct (defaultTemplate this) as [d|]; [|discriminate].
  intros H. split; [discriminate | eauto].
Qed.

Lemma registered_invariant props d :
  props <> [] -> registered (mkRepository props (Some d)) d = true ->
  invariant (mkRepository props (Some d)) = true.
Proof.
  unfold invariant. cbn [templates defaultTemplate].
  destruct props; [congruence | auto].
Qed.

(** Setting the default to a name that is not inherited from
    [Object.prototype] keeps the invariant. *)
Lemma setDefaultTemplate_preserves templateId :
  isInherited templateId = false -> preserves (setDefaultTemplate templateId).
Proof.
  intros Hname this Hkeys Hinv. rewrite setDefaultTemplate_unfold. cbn [fst snd].
  unfold getProp. rewrite Hname.
  destruct (getOwn (templates this) templateId) as [t|] eqn:Hown;
    cbn [truthyValue].
  - split; [exact Hkeys|]. split; [|discriminate].
    apply registered_invariant.
    + now destruct (invariant_registered _ Hinv).
    + unfold registered. cbn [templates]. now rewrite Hown.
  - repeat split; auto.
Qed.

Lemma addTemplate_preserves template : preserves (addTemplate template).
Proof.
  intros this Hkeys Hinv. unfold addTemplate, bind, get, put, throw. cbn [fst snd].
  destruct template as [t|]; [|now repeat split].
  destruct (negb (truthyOpt (id t)) || negb (truthyOpt (name t))
            || match selectTemplate t with None => true | Some _ => false end);
    [now repeat split|].
  unfold getProp.
  destruct (getOwn (templates this) (propertyKey (id t))) eqn:Hown;
    [now repeat split|].
  destruct (isInherited (propertyKey (id t))); [now repeat split|].
  cbn [truthyValue].
  destruct (selectTemplate t) as [[|f]|]; try now repeat split.
  cbn [fst snd]. destruct (invariant_registered _ Hinv) as (_ & d & Hd & Hreg).
  split; [|split; [|discriminate]].
  - unfold uniqueKeys. cbn [templates]. rewrite setOwn_keys_absent by exact Hown.
    apply NoDup_app; [exact Hkeys | repeat constructor; intros [] | ].
    intros k Hin [<- | []]. now apply (getOwn_None_notIn _ _ Hown).
  - unfold invariant. cbn [templates defaultTemplate]. rewrite Hd.
    destruct (setOwn (templates this) (propertyKey (id t)) t) eqn:Hset.
    + destruct (templates this) as [|[k v] ?]; cbn in Hset; [discriminate|].
      destruct (str_eqb k _); discriminate.
    + rewrite <- Hset. unfold registered in *. cbn [templates].
      rewrite getOwn_setOwn. destruct (str_eqb _ d); [reflexivity | exact Hreg].
Qed.

(** [createCustomTemplate] either throws before it touches the state, or
    hands a new template to [addTemplate]. *)
Lemma createCustomTemplate_cases templateConfig this :
  (exists e, createCustomTemplate templateConfig this = (Throw e, this))
  \/ (exists newTemplate,
        createCustomTemplate templateConfig this
        = match addTemplate (Some newTemplate) this with
          | (Ok _, this') => (Ok newTemplate, this')
          | (Throw e, this') => (Throw e, this')
          end).
Proof.
  unfold createCustomTemplate. rewrite bind_get. cbv zeta.
  destruct (negb (truthyOpt (cfg_id templateConfig))
            || negb (truthyOpt (cfg_name templateConfig)));
    [left; eexists; reflexivity|].
  destruct (truthyValue (getProp (templates this)
                           (propertyKey (cfg_id templateConfig))));
    [left; eexists; reflexivity|].
  set (base :=
         if truthyOpt (cfg_baseTemplate templateConfig)
            && truthyValue (getProp (templates this)
                              (propertyKey (cfg_baseTemplate templateConfig)))
         then getProp (templates this) (propertyKey (cfg_baseTemplate templateConfig))
         else getDefaultTemplate this).
  clearbody base.
  destruct (cfg_imageRules templateConfig) as [rules|];
    destruct (truthyOpt (cfg_description templateConfig));
    destruct base;
    cbn [readSelectTemplate readDescription];
    rewrite ?bind_ret, ?bind_throw;
    cbn [readSelectTemplate readDescription];
    rewrite ?bind_ret, ?bind_throw;
    try (left; eexists; reflexivity);
    right;
    match goal with
    | |- context [addTemplate (Some ?t)] => exists t
    end;
    unfold bind, ret;
    destruct (addTemplate _ this) as [[u|e] this']; reflexivity.
Qed.

Lemma createCustomTemplate_preserves templateConfig :
  preserves (createCustomTemplate templateConfig).
Proof.
  intros this Hkeys Hinv.
  destruct (createCustomTemplate_cases templateConfig this)
    as [[e ->] | [newTemplate ->]]; [now repeat split|].
  pose proof (addTemplate_preserves (Some newTemplate) this Hkeys Hinv) as Hadd.
  destruct (addTemplate (Some newTemplate) this) as [[u|e] this'];
    cbn [fst snd] in *; destruct Hadd as (H1 & H2 & H3);
    repeat split; auto; intros e' He'; [discriminate | eauto].
Qed.

Lemma removeTemplate_unfold templateId this :
  removeTemplate templateId this
  = if negb (truthy templateId) then (Throw TemplateIdEmpty, this)
    else if negb (truthyValue (getProp (templates this) templateId))
    then (Throw (TemplateMissing templateId), this)
    else if (List.length (objectKeys (templates this)) <=? 1)%nat
    then (Throw LastTemplate, this)
    else
      let props := deleteOwn (templates this) templateId in
      (Ok tt,
       match defaultTemplate this with
       | Some d =>
         if str_eqb d templateId
         then mkRepository props
                (match objectKeys props with
                 | first :: _ => Some first
                 | [] => None
                 end)
         else mkRepository props (Some d)
       | None => mkRepository props None
       end).
Proof.
  unfold removeTemplate. rewrite bind_get.
  destruct (negb (truthy templateId)); [reflexivity|].
  destruct (negb (truthyValue _)); [reflexivity|].
  destruct (_ <=? 1)%nat; [reflexivity|].
  unfold bind, put, get, ret. cbn [templates defaultTemplate].
  destruct (defaultTemplate this) as [d|]; [|reflexivity].
  destruct (str_eqb d templateId); reflexivity.
Qed.

Lemma removeTemplate_preserves templateId : preserves (removeTemplate templateId).
Proof.
  intros this Hkeys Hinv. rewrite removeTemplate_unfold.
  destruct (negb (truthy templateId)); [now repeat split|].
  destruct (negb (truthyValue _)) eqn:Hexists; [now repeat split|].
  rewrite objectKeys_length.
  destruct (_ <=? 1)%nat eqn:Hcount; [now repeat split|].
  apply Nat.leb_gt in Hcount. cbv zeta. cbn [fst snd].
  destruct (invariant_registered _ Hinv) as (_ & d & Hd & Hreg). rewrite Hd.
  assert (Hleft : deleteOwn (templates this) templateId <> [])
    by (apply deleteOwn_leaves; [exact Hkeys | lia]).
  assert (Hnodup : NoDup (List.map fst (deleteOwn (templates this) templateId))).
  { rewrite deleteOwn_keys. now apply NoDup_filter. }
  destruct (str_eqb d templateId) eqn:Hdefault.
  - split; [exact Hnodup|]. split; [|discriminate].
    destruct (objectKeys (deleteOwn (templates this) templateId))
      as [|first keys] eqn:Hobj.
    + apply (f_equal (@List.length _)) in Hobj. rewrite objectKeys_length in Hobj.
      destruct (deleteOwn (templates this) templateId); [congruence | discriminate].
    + apply registered_invariant; [exact Hleft|].
      unfold registered. cbn [templates].
      assert (Hin : In first (objectKeys (deleteOwn (templates this) templateId)))
        by (rewrite Hobj; now left).
      apply objectKeys_In, In_getOwn in Hin. destruct Hin as [t ->]. reflexivity.
  - split; [exact Hnodup|]. split; [|discriminate].
    apply registered_invariant; [exact Hleft|].
    unfold registered in *. cbn [templates]. rewrite getOwn_deleteOwn.
    destruct (str_eqb templateId d) eqn:E; [|exact Hreg].
    apply str_eqb_eq in E. subst. rewrite str_eqb_refl in Hdefault. discriminate.
Qed.

(** Removing the only template throws and changes nothing. *)
Lemma removeTemplate_sole this key t templateId :
  templates this = [(key, t)] ->
  exists e, removeTemplate templateId this = (Throw e, this).
Proof.
  intros Hsole. rewrite removeTemplate_unfold, objectKeys_length, Hsole.
  cbn [List.length Nat.leb].
  destruct (negb (truthy templateId)); [eauto|].
  destruct (negb (truthyValue _)); eauto.
Qed.

Lemma removeTemplate_sole_last this key t :
  templates this = [(key, t)] -> truthy key = true ->
  removeTemplate key this = (Throw LastTemplate, this).
Proof.
  intros Hsole Hkey. rewrite removeTemplate_unfold, objectKeys_length, Hsole, Hkey.
  unfold getProp. cbn [getOwn]. rewrite str_eqb_refl. reflexivity.
Qed.

(** Removing the default template, when it is not the only one, makes a
    template that is still registered the default. *)
Lemma removeTemplate_default this d :
  uniqueKeys this ->
  defaultTemplate this = Some d -> registered this d = true ->
  truthy d = true -> (2 <= List.length (templates this))%nat ->
  exists d',
    removeTemplate d this
    = (Ok tt, mkRepository (deleteOwn (templates this) d) (Some d'))
    /\ registered (mkRepository (deleteOwn (templates this) d) (Some d')) d' = true
    /\ registered (mkRepository (deleteOwn (templates this) d) (Some d')) d = false.
Proof.
  intros Hkeys Hd Hreg Htruthy Hcount.
  rewrite removeTemplate_unfold, objectKeys_length, Htruthy, Hd, str_eqb_refl.
  unfold registered in Hreg. unfold getProp.
  destruct (getOwn (templates this) d) as [t|] eqn:Hown; [|discriminate].
  cbn [negb truthyValue].
  replace (List.length (templates this) <=? 1)%nat with false
    by (symmetry; apply Nat.leb_gt; lia).
  cbv zeta.
  destruct (objectKeys (deleteOwn (templates this) d)) as [|first keys] eqn:Hobj.
  - apply (f_equal (@List.length _)) in Hobj. rewrite objectKeys_length in Hobj.
    pose proof (deleteOwn_leaves (templates this) d Hkeys Hcount) as Hleft.
    destruct (deleteOwn (templates this) d); [congruence | discriminate].
  - exists first. split; [reflexivity|]. unfold registered. cbn [templates].
    assert (Hin : In first (objectKeys (deleteOwn (templates this) d)))
      by (rewrite Hobj; now left).
    apply objectKeys_In, In_getOwn in Hin. destruct Hin as [t' ->].
    split; [reflexivity|]. now rewrite getOwn_deleteOwn, str_eqb_refl.
Qed.

End RepositoryMethods.

(** C5, counterexample: setting the default to an id that is not
    registered throws nothing and leaves the repository as it was. *)
Lemma setDefaultTemplate_absent_is_silent :
  getOwn (templates constructor) (js "magazine") = None
  /\ setDefaultTemplate (js "magazine") constructor = (Ok tt, constructor).
Proof. split; reflexivity. Qed.

(** C5, amended: [setDefaultTemplate] never throws.  For an id
    that is not the name of a member of [Object.prototype], it makes the
    id the default when a template is registered under it and changes
    nothing otherwise. *)
Theorem setDefaultTemplate_guarded :
  forall (this : Repository) (templateId : jsstring),
    isInherited templateId = false ->
    setDefaultTemplate templateId this
    = (Ok tt,
       match getOwn (templates this) templateId with
       | Some _ => mkRepository (templates this) (Some templateId)
       | None => this
       end).
Proof.
  intros this templateId Hname. rewrite setDefaultTemplate_unfold.
  unfold getProp. rewrite Hname.
  destruct (getOwn (templates this) templateId); reflexivity.
Qed.

Lemma setDefaultTemplate_guarded_witness :
  isInherited (js "simple") = false
  /\ setDefaultTemplate (js "simple") constructor
     = (Ok tt, mkRepository (templates constructor) (Some (js "simple"))).
Proof.
  split; [reflexivity|].
  apply (setDefaultTemplate_guarded constructor (js "simple")). reflexivity.
Defined.

(** C4, at the freshly constructed repository: [setDefaultTemplate] with
    the id "toString" finds [Object.prototype.toString] behind
    [this.templates[templateId]], takes it for a template and makes
    "toString" the default, although no template is registered under that
    id: the invariant holds before the call and not after it. *)
Theorem setDefaultTemplate_inherited_name_breaks_invariant :
  invariant constructor = true
  /\ setDefaultTemplate (js "toString") constructor
     = (Ok tt, mkRepository (templates constructor) (Some (js "toString")))
  /\ registered (mkRepository (templates constructor) (Some (js "toString")))
       (js "toString") = false
  /\ invariant (mkRepository (templates constructor) (Some (js "toString"))) = false.
Proof. repeat split; vm_compute; reflexivity. Qed.

(** ** The route that sets the default template *)

(** The route answers 404 for an id that is neither registered nor the
    name of a member of [Object.prototype], and does not call the
    repository. *)
Lemma postSetDefaultTemplate_absent this templateId :
  truthy templateId = true ->
  getOwn (templates this) templateId = None ->
  isInherited templateId = false ->
  postSetDefaultTemplate (Some templateId) this = (Ok status404, this).
Proof.
  intros Hid Hown Hname.
  unfold postSetDefaultTemplate, handle, getTemplateById, getProp.
  cbn [truthyOpt propertyKey]. rewrite Hid. cbn [negb]. rewrite bind_get.
  rewrite Hown, Hname. reflexivity.
Qed.

(** The id "toString" passes the route's lookup as well as the guard of
    [setDefaultTemplate]: the request succeeds and leaves a default that
    names no template. *)
Lemma postSetDefaultTemplate_inherited_name :
  postSetDefaultTemplate (Some (js "toString")) constructor
  = (Ok status200, mkRepository (templates constructor) (Some (js "toString")))
  /\ getDefaultTemplate (mkRepository (templates constructor) (Some (js "toString")))
     = VInherited.
Proof. split; vm_compute; reflexivity. Qed.

(** * Further properties *)

(** ** The classifier on arbitrary paragraph lists *)

Section ClassifierMore.

Lemma analyzeLoop_blank (p : jsstring) rest sections pos :
  trim p = [] ->
  analyzeLoop (p :: rest) sections pos = analyzeLoop rest sections pos.
Proof. intros Hp. cbn [analyzeLoop]. cbv zeta. now rewrite Hp. Qed.

Lemma notBlank_true (p : jsstring) : notBlank p = true -> trim p <> [].
Proof.
  unfold notBlank. intros H Hnil. rewrite Hnil in H. discriminate.
Qed.

Lemma notBlank_false (p : jsstring) : notBlank p = false -> trim p = [].
Proof.
  unfold notBlank. destruct (trim p); [reflexivity | discriminate].
Qed.

Lemma classified_content paragraph sections pos :
  content (classified paragraph sections pos) = paragraph.
Proof.
  unfold classified.
  destruct (isImage _); [reflexivity|]. destruct (_isSubtitle _ _); reflexivity.
Qed.

Lemma classified_type paragraph sections pos :
  type (classified paragraph sections pos) <> type_other.
Proof.
  unfold classified.
  destruct (isImage _); [discriminate|]. destruct (_isSubtitle _ _); discriminate.
Qed.

(** What the loop appends, for any list of paragraphs. *)
Lemma analyzeLoop_any rest : forall sections pos,
  exists new,
    analyzeLoop rest sections pos = sections ++ new
    /\ List.map content new = List.map trim (filter notBlank rest)
    /\ List.map position new =
       List.map (fun i => (pos + Z.of_nat i)%Z)
                (seq 0 (List.length (filter notBlank rest)))
    /\ Forall (fun s => type s <> type_other) new.
Proof.
  induction rest as [|p rest IH]; intros sections pos.
  - exists []. cbn. rewrite app_nil_r. auto.
  - cbn [filter]. destruct (notBlank p) eqn:Hp.
    + apply notBlank_true in Hp. rewrite (analyzeLoop_step _ _ _ _ Hp).
      destruct (IH (sections ++ [classified (trim p) sections pos]) (pos + 1)%Z)
        as (new & Heq & Hcontent & Hpos & Htypes).
      exists (classified (trim p) sections pos :: new).
      rewrite Heq, <- app_assoc. split; [reflexivity|].
      cbn [List.map List.length seq].
      rewrite classified_content, classified_position, Hcontent, Hpos.
      split; [reflexivity|]. split.
      * f_equal; [lia|]. rewrite <- seq_shift, map_map.
        apply map_ext. intros i. lia.
      * constructor; [apply classified_type | exact Htypes].
    + apply notBlank_false in Hp. rewrite (analyzeLoop_blank _ _ _ _ Hp).
      apply IH.
Qed.

Lemma analyzeLoop_from_one (paragraphs : list jsstring) :
  List.map content (analyzeLoop (tl paragraphs) [] 1)
    = List.map trim (filter notBlank (tl paragraphs))
  /\ List.map position (analyzeLoop (tl paragraphs) [] 1)
    = List.map Z.of_nat (seq 1 (List.length (filter notBlank (tl paragraphs)))).
Proof.
  destruct (analyzeLoop_any (tl paragraphs) [] 1%Z)
    as (new & Heq & Hcontent & Hpos & _).
  rewrite Heq. cbn [app]. split; [exact Hcontent|].
  rewrite Hpos, <- seq_shift, map_map. apply map_ext. intros i. lia.
Qed.

End ClassifierMore.

(** X1: for any paragraph list, blank entries included,
    [_analyzeContentStructure] returns one section for each entry after the
    first that is not blank, in order: its [content] is the trimmed entry
    and its [position] counts the sections from 1, so blank entries leave
    no gap in the numbering. *)
Theorem analyzeContentStructure_skips_blank :
  forall paragraphs : list jsstring,
    List.map content (_analyzeContentStructure paragraphs)
      = List.map trim (filter notBlank (tl paragraphs))
    /\ List.map position (_analyzeContentStructure paragraphs)
      = List.map Z.of_nat
          (seq 1 (List.length (filter notBlank (tl paragraphs)))).
Proof.
  intros paragraphs. unfold _analyzeContentStructure.
  destruct (analyzeLoop_any (tl paragraphs) [] 1%Z)
    as (new & Heq & Hcontent & Hpos & _).
  rewrite Heq. cbn [app]. split; [exact Hcontent|].
  rewrite Hpos, <- seq_shift, map_map. apply map_ext. intros i. lia.
Qed.

(** X2: every section the classifier returns has one of the types text,
    subtitle and image, and a content that is not empty. *)
Theorem analyzeContentStructure_sections_wellformed :
  forall paragraphs : list jsstring,
    Forall (fun s => type s <> type_other /\ content s <> [])
           (_analyzeContentStructure paragraphs).
Proof.
  intros paragraphs. unfold _analyzeContentStructure.
  destruct (analyzeLoop_any (tl paragraphs) [] 1%Z)
    as (new & Heq & Hcontent & _ & Htypes).
  rewrite Heq. cbn [app].
  assert (Hne : Forall (fun c : jsstring => c <> []) (List.map content new)).
  { rewrite Hcontent. apply Forall_forall. intros c Hin.
    apply in_map_iff in Hin. destruct Hin as (p & <- & Hin).
    apply filter_In in Hin. now apply notBlank_true. }
  clear Heq Hcontent. induction new as [|s new IH]; [constructor|].
  inversion Htypes; subst. inversion Hne; subst. constructor; auto.
Qed.

(** ** What the two heuristics never do *)

Section Heuristics.

Lemma trimStart_snoc (c : jschar) : forall before : jsstring,
  isWhiteSpace c = false ->
  exists kept, trimStart (before ++ [c]) = kept ++ [c].
Proof.
  intros before Hc. induction before as [|b before IH]; cbn [app trimStart].
  - rewrite Hc. now exists [].
  - destruct (isWhiteSpace b); [exact IH|]. now exists (b :: before).
Qed.

Lemma trimEnd_snoc (c : jschar) (s : jsstring) :
  isWhiteSpace c = false -> trimEnd (s ++ [c]) = s ++ [c].
Proof.
  intros Hc. unfold trimEnd. rewrite rev_app_distr. cbn [rev app trimStart].
  rewrite Hc. cbn [rev]. now rewrite rev_involutive.
Qed.

Lemma trim_snoc (c : jschar) (before : jsstring) :
  isWhiteSpace c = false ->
  exists kept, trim (before ++ [c]) = kept ++ [c].
Proof.
  intros Hc. unfold trim.
  destruct (trimStart_snoc c before Hc) as [kept ->].
  exists kept. now apply trimEnd_snoc.
Qed.

Lemma bodyPunctuation_not_space (c : jschar) :
  In c (js "，。；！？") -> isWhiteSpace c = false.
Proof.
  intros Hin. vm_compute in Hin.
  repeat (destruct Hin as [<- | Hin]; [reflexivity|]). destruct Hin.
Qed.

Lemma bodyPunctuationEnding_snoc (c : jschar) (s : jsstring) :
  In c (js "，。；！？") -> test bodyPunctuationEnding (s ++ [c]) = true.
Proof.
  intros Hin. apply test_Matches. exists s, [c], [].
  split; [reflexivity|]. split; [|split; [discriminate | reflexivity]].
  apply MClass. apply existsb_exists. exists c. split; [exact Hin|].
  apply N.eqb_refl.
Qed.

(** The last image rule asks for a text that starts with the glyph, which
    the rule before it has caught. *)
Lemma tuCaptionPattern_startsWith (s : jsstring) :
  test tuCaptionPattern s = true -> startsWith s (js "图") = true.
Proof.
  intros H. apply test_Matches in H.
  destruct H as (before & found & after & -> & Hfound & Hstart & _).
  rewrite (Hstart eq_refl). cbn [app].
  change (body tuCaptionPattern)
    with (Cat (Cat (Class (char_eqb 22270%N)) Eps)
              (cats [plus (Alt digit (oneOf cjkNumerals));
                     plus (Alt space (Class (char_eqb 12288%N)));
                     plus dot])) in Hfound.
  apply Matches_Cat_inv in Hfound. destruct Hfound as (s1 & s2 & -> & H1 & _).
  apply Matches_Cat_inv in H1. destruct H1 as (s3 & s4 & -> & H3 & H4).
  apply Matches_Eps_inv in H4. subst s4.
  inversion H3 as [|p c Hc| | | | |]; subst.
  unfold char_eqb in Hc. apply N.eqb_eq in Hc. subst c.
  cbn [app]. change (js "图") with [22270%N]. cbn [startsWith].
  unfold char_eqb. rewrite N.eqb_refl. now destruct (s2 ++ after).
Qed.

End Heuristics.

(** X3: [_isSubtitle] rejects every text that is longer than 30 code
    units, and every text that ends in one of the marks ，。；！？, whatever
    keywords it holds and whatever section comes before it. *)
Theorem isSubtitle_rejects :
  forall (text : jsstring) (sections : list Section),
    (30 < jslength text)%Z
    \/ (exists before c, text = before ++ [c] /\ In c (js "，。；！？")) ->
    _isSubtitle text sections = false.
Proof.
  intros text sections [Hlong | (before & c & -> & Hc)];
    unfold _isSubtitle; cbv zeta.
  - replace (jslength text <=? 30)%Z with false
      by (symmetry; apply Z.leb_gt; exact Hlong).
    reflexivity.
  - destruct (trim_snoc c before (bodyPunctuation_not_space c Hc)) as [kept ->].
    rewrite (bodyPunctuationEnding_snoc c kept Hc). apply andb_false_r.
Qed.

Lemma isSubtitle_rejects_witness :
  ((30 < jslength (js "活动总结。"))%Z
   \/ (exists before c, js "活动总结。" = before ++ [c] /\ In c (js "，。；！？")))
  /\ _isSubtitle (js "活动总结。") [mkSection type_subtitle (js "核心提示：") 1]
     = false.
Proof.
  assert (H : (30 < jslength (js "活动总结。"))%Z
              \/ (exists before c,
                    js "活动总结。" = before ++ [c] /\ In c (js "，。；！？"))).
  { right. exists (js "活动总结"), 12290%N. split; [reflexivity|].
    vm_compute. auto. }
  split; [exact H|].
  exact (isSubtitle_rejects (js "活动总结。")
           [mkSection type_subtitle (js "核心提示：") 1] H).
Defined.

(** X4: a text is taken for an image placeholder exactly when one of the
    first seven rules of [_isImagePlaceholder] holds; its last rule, the
    caption pattern tried on texts that hold the glyph, never decides. *)
Theorem isImagePlaceholder_rules :
  forall text : jsstring,
    isImage (_isImagePlaceholder text)
    = (includesAny text imageMarkers
       || (includes text (js "图")
           && (test tuDigits text || test tuNumeral text || test tuLetter text))
       || (str_eqb (trim text) (js "图片") || str_eqb (trim text) (js "图像"))
       || includesAny text imageCaptionKeywords
       || test imageCaptionFormat (trim text)
       || existsb (fun p => test p text) imageDescriptionPatterns
       || startsWith (trim text) (js "图")).
Proof.
  intros text. unfold _isImagePlaceholder. cbv zeta.
  destruct (includesAny text imageMarkers); [reflexivity|].
  destruct (includes text (js "图")
            && (test tuDigits text || test tuNumeral text || test tuLetter text));
    [reflexivity|].
  destruct (str_eqb (trim text) (js "图片") || str_eqb (trim text) (js "图像"));
    [reflexivity|].
  destruct (includesAny text imageCaptionKeywords); [reflexivity|].
  destruct (test imageCaptionFormat (trim text)); [reflexivity|].
  destruct (existsb (fun p => test p text) imageDescriptionPatterns);
    [reflexivity|].
  destruct (startsWith (trim text) (js "图")) eqn:Hstart; [reflexivity|].
  destruct (test tuCaptionPattern (trim text)) eqn:Hlast.
  - apply tuCaptionPattern_startsWith in Hlast. congruence.
  - rewrite andb_false_r. reflexivity.
Qed.

(** ** The two entry points of the parser *)

Section Lines.

Lemma splitLines_oneLine (line : jsstring) :
  oneLine line = true -> splitLines line = [line].
Proof.
  unfold oneLine. induction line as [|c line IH]; cbn [existsb splitLines];
    [reflexivity|].
  destruct (char_eqb c 10%N); cbn [orb negb]; [discriminate|].
  intros H. now rewrite (IH H).
Qed.

Lemma splitLines_line_feed (line rest : jsstring) :
  oneLine line = true ->
  splitLines (line ++ [10%N] ++ rest) = line :: splitLines rest.
Proof.
  unfold oneLine. induction line as [|c line IH]; cbn [existsb splitLines app].
  - reflexivity.
  - destruct (char_eqb c 10%N); cbn [orb negb]; [discriminate|].
    intros H. cbn [app] in IH. now rewrite (IH H).
Qed.

Lemma splitLines_joinLines (line : jsstring) (lines : list jsstring) :
  Forall (fun l => oneLine l = true) (line :: lines) ->
  splitLines (joinLines (line :: lines)) = line :: lines.
Proof.
  revert line. induction lines as [|next lines IH]; intros line Hall;
    inversion Hall as [|? ? Hline Hrest]; subst.
  - now apply splitLines_oneLine.
  - change (joinLines (line :: next :: lines))
      with (line ++ [10%N] ++ joinLines (next :: lines)).
    rewrite splitLines_line_feed by exact Hline. now rewrite IH.
Qed.

Lemma filter_splitLines_joinLines (lines : list jsstring) :
  Forall (fun l => oneLine l = true) lines ->
  filter notBlank (splitLines (joinLines lines)) = filter notBlank lines.
Proof.
  destruct lines as [|line lines]; [reflexivity|].
  intros Hall. now rewrite splitLines_joinLines.
Qed.

Lemma trim_blank (s : jsstring) :
  Forall (fun c => isWhiteSpace c = true) s -> trim s = [].
Proof.
  intros Hall. unfold trim.
  assert (Hstart : trimStart s = []).
  { induction Hall as [|c s Hc _ IH]; [reflexivity|]. cbn. now rewrite Hc. }
  now rewrite Hstart.
Qed.

Lemma splitLines_blank (value : jsstring) :
  Forall (fun c => isWhiteSpace c = true) value ->
  Forall (fun line => Forall (fun c => isWhiteSpace c = true) line)
         (splitLines value).
Proof.
  induction 1 as [|c value Hc _ IH]; cbn [splitLines].
  - repeat constructor.
  - destruct (char_eqb c 10%N); [constructor; [constructor | exact IH]|].
    destruct (splitLines value) as [|line lines]; [repeat constructor; exact Hc|].
    inversion IH; subst. constructor; [constructor; assumption | assumption].
Qed.

Lemma markManual_spec (sections : list Section) : forall index : Z,
  List.map m_type (markManual index sections) = List.map type sections
  /\ List.map m_content (markManual index sections) = List.map content sections
  /\ List.map m_position (markManual index sections)
     = List.map (fun i => (index + 1 + Z.of_nat i)%Z) (seq 0 (List.length sections))
  /\ Forall (fun m => manualEdit m = true) (markManual index sections).
Proof.
  induction sections as [|s sections IH]; intros index; cbn.
  - repeat split; constructor.
  - destruct (IH (index + 1)%Z) as (Ht & Hc & Hp & He).
    rewrite Ht, Hc, Hp. repeat split.
    + f_equal; [lia|]. rewrite <- seq_shift, map_map.
      apply map_ext. intros i. lia.
    + constructor; [reflexivity | exact He].
Qed.

Lemma markManual_numbered (sections : list Section) : forall index : Z,
  List.map position sections
  = List.map (fun i => (index + 1 + Z.of_nat i)%Z) (seq 0 (List.length sections)) ->
  List.map asSection (markManual index sections) = sections.
Proof.
  induction sections as [|s sections IH]; intros index Hpos; [reflexivity|].
  cbn in Hpos. inversion Hpos as [[Hhead Htail]].
  cbn [markManual List.map]. rewrite IH.
  - f_equal. unfold asSection. cbn. destruct s as [t c p]. cbn in *.
    f_equal. lia.
  - rewrite Htail, <- seq_shift, map_map. apply map_ext. intros i. lia.
Qed.

End Lines.

(** X5: when the extracted text consists of the lines title, p1, ..., pn,
    none of them blank, [parseDocument] takes the trimmed first line as the
    title and returns one section for each further line, with the trimmed
    line as content and the positions 1 to n. *)
Theorem parseRawText_lines :
  forall (first : jsstring) (paragraphs : list jsstring),
    Forall (fun l => oneLine l = true) (first :: paragraphs) ->
    Forall (fun l => notBlank l = true) (first :: paragraphs) ->
    title (parseRawText (joinLines (first :: paragraphs))) = trim first
    /\ List.map content (sections (parseRawText (joinLines (first :: paragraphs))))
       = List.map trim paragraphs
    /\ List.map position (sections (parseRawText (joinLines (first :: paragraphs))))
       = List.map Z.of_nat (seq 1 (List.length paragraphs)).
Proof.
  intros first paragraphs Hlines Hfull. unfold parseRawText. cbv zeta.
  rewrite splitLines_joinLines by exact Hlines.
  assert (Hfilter : filter notBlank (first :: paragraphs) = first :: paragraphs).
  { apply forallb_filter_id. apply forallb_forall.
    now apply Forall_forall. }
  rewrite Hfilter. cbn [title sections].
  unfold _analyzeContentStructure.
  destruct (analyzeLoop_from_one (first :: paragraphs)) as [Hcontent Hpos].
  inversion Hfull as [|? ? _ Hrest]; subst.
  assert (Hparagraphs : filter notBlank paragraphs = paragraphs).
  { apply forallb_filter_id. apply forallb_forall. now apply Forall_forall. }
  cbn [tl] in Hcontent, Hpos. rewrite Hparagraphs in Hcontent, Hpos. auto.
Qed.

Lemma parseRawText_lines_witness :
  Forall (fun l => oneLine l = true) [js "标题"; js " 活动介绍 "; js "图1 合影"]
  /\ Forall (fun l => notBlank l = true) [js "标题"; js " 活动介绍 "; js "图1 合影"]
  /\ List.map content
       (sections (parseRawText (joinLines [js "标题"; js " 活动介绍 "; js "图1 合影"])))
     = [js "活动介绍"; js "图1 合影"].
Proof.
  assert (H1 : Forall (fun l => oneLine l = true)
                      [js "标题"; js " 活动介绍 "; js "图1 合影"])
    by (repeat constructor).
  assert (H2 : Forall (fun l => notBlank l = true)
                      [js "标题"; js " 活动介绍 "; js "图1 合影"])
    by (repeat constructor).
  split; [exact H1|]. split; [exact H2|].
  exact (proj1 (proj2 (parseRawText_lines (js "标题")
                         [js " 活动介绍 "; js "图1 合影"] H1 H2))).
Defined.

(** X6: a text that holds nothing but white space and line breaks parses
    to an empty title and no section. *)
Theorem parseRawText_blank :
  forall value : jsstring,
    Forall (fun c => isWhiteSpace c = true) value ->
    parseRawText value = mkParsedContent [] [].
Proof.
  intros value Hblank. unfold parseRawText. cbv zeta.
  assert (Hnone : filter notBlank (splitLines value) = []).
  { pose proof (splitLines_blank value Hblank) as Hlines.
    induction Hlines as [|line lines Hline _ IH]; [reflexivity|].
    cbn [filter]. unfold notBlank at 1. now rewrite (trim_blank line Hline). }
  rewrite Hnone. reflexivity.
Qed.

Lemma parseRawText_blank_witness :
  Forall (fun c => isWhiteSpace c = true) [32; 10; 9; 13; 10; 12288]%N
  /\ parseRawText [32; 10; 9; 13; 10; 12288]%N = mkParsedContent [] [].
Proof.
  assert (H : Forall (fun c => isWhiteSpace c = true) [32; 10; 9; 13; 10; 12288]%N)
    by (repeat constructor).
  split; [exact H|].
  exact (parseRawText_blank [32; 10; 9; 13; 10; 12288]%N H).
Defined.

(** X7: [parseManualContent] keeps the title and the type and content of
    every section, numbers the sections 1, 2, ..., n whatever positions
    they came with, and marks each of them as a manual edit.  The sections
    the classifier returns are numbered that way already: marking a parsed
    document as manual changes no title, type, content or position. *)
Theorem parseManualContent_renumbers :
  forall (content : ParsedContent) (heading : jsstring)
         (paragraphs : list jsstring),
    m_title (parseManualContent content) = title content
    /\ List.map m_type (m_sections (parseManualContent content))
       = List.map type (sections content)
    /\ List.map m_content (m_sections (parseManualContent content))
       = List.map DocumentParser.content (sections content)
    /\ List.map m_position (m_sections (parseManualContent content))
       = List.map Z.of_nat (seq 1 (List.length (sections content)))
    /\ Forall (fun m => manualEdit m = true) (m_sections (parseManualContent content))
    /\ asParsedContent
         (parseManualContent
            (mkParsedContent heading (_analyzeContentStructure paragraphs)))
       = mkParsedContent heading (_analyzeContentStructure paragraphs).
Proof.
  intros content heading paragraphs. unfold parseManualContent.
  cbn [m_title m_sections].
  destruct (markManual_spec (sections content) 0) as (Ht & Hc & Hp & He).
  repeat split; try assumption.
  - rewrite Hp, <- seq_shift, map_map. apply map_ext. intros i. lia.
  - unfold asParsedContent. cbn [m_title m_sections title sections]. f_equal.
    apply markManual_numbered.
    destruct (analyzeLoop_any (tl paragraphs) [] 1%Z)
      as (new & Heq & Hcontent & Hpos & _).
    unfold _analyzeContentStructure. rewrite Heq. cbn [app].
    rewrite Hpos, <- (length_map DocumentParser.content new), Hcontent, length_map.
    reflexivity.
Qed.

(** ** The methods of the repository *)

Section RepositoryMore.

Lemma repository_eta (this : Repository) :
  mkRepository (templates this) (defaultTemplate this) = this.
Proof. now destruct this. Qed.

Lemma addTemplate_unfold (t : Template) (this : Repository) :
  addTemplate (Some t) this
  = if negb (truthyOpt (id t)) || negb (truthyOpt (name t))
       || match selectTemplate t with None => true | Some _ => false end
    then (Throw TemplateIncomplete, this)
    else if truthyValue (getProp (templates this) (propertyKey (id t)))
    then (Throw (TemplateExists (propertyKey (id t))), this)
    else
      match selectTemplate t with
      | Some (Function _) =>
        (Ok tt,
         mkRepository (setOwn (templates this) (propertyKey (id t)) t)
                      (defaultTemplate this))
      | _ => (Throw SelectNotFunction, this)
      end.
Proof.
  unfold addTemplate. rewrite bind_get.
  destruct (negb (truthyOpt (id t)) || negb (truthyOpt (name t))
            || match selectTemplate t with None => true | Some _ => false end);
    [reflexivity|].
  destruct (truthyValue _); [reflexivity|].
  destruct (selectTemplate t) as [[|f]|]; reflexivity.
Qed.

Lemma getProp_falsy props key :
  truthyValue (getProp props key) = false <->
  getOwn props key = None /\ isInherited key = false.
Proof.
  unfold getProp. destruct (getOwn props key); cbn [truthyValue].
  - split; [discriminate | intros H; destruct H; discriminate].
  - destruct (isInherited key); cbn [truthyValue]; split; auto;
      intros H; destruct H; discriminate.
Qed.

Lemma setOwn_absent props key t :
  getOwn props key = None -> setOwn props key t = props ++ [(key, t)].
Proof.
  induction props as [|[k v] props IH]; cbn; [reflexivity|].
  destruct (str_eqb k key); [discriminate|]. intros H. now rewrite IH.
Qed.

Lemma deleteOwn_app props more key :
  deleteOwn (props ++ more) key = deleteOwn props key ++ deleteOwn more key.
Proof. unfold deleteOwn. apply filter_app. Qed.

Lemma constructor_uniqueKeys : uniqueKeys constructor.
Proof.
  unfold uniqueKeys.
  change (List.map fst (templates constructor))
    with [js "business"; js "simple"; js "education"; js "creative"].
  repeat (apply NoDup_cons;
          [cbn [In]; intros H;
           repeat match type of H with
                  | _ \/ _ => destruct H as [H | H]; [vm_compute in H; discriminate|]
                  end;
           exact H|]).
  apply NoDup_nil.
Qed.

Lemma constructor_callable : callable constructor.
Proof.
  intros key t Hown. cbn in Hown.
  repeat match type of Hown with
         | (if ?b then _ else _) = _ =>
           destruct b; [inversion Hown; subst; eexists; reflexivity|]
         end.
  discriminate.
Qed.

End RepositoryMore.

(** X8: [addTemplate], [removeTemplate] and [createCustomTemplate] keep
    the repository sound: when every key is owned once, a template is
    registered and the default names a registered template, the same holds
    after each of them, and a call that throws has changed nothing. *)
Theorem methods_keep_invariant :
  forall (this : Repository) (template : option Template)
         (templateId : jsstring) (templateConfig : TemplateConfig),
    uniqueKeys this -> invariant this = true ->
    (uniqueKeys (snd (addTemplate template this))
     /\ invariant (snd (addTemplate template this)) = true
     /\ (forall e, fst (addTemplate template this) = Throw e ->
                   snd (addTemplate template this) = this))
    /\ (uniqueKeys (snd (removeTemplate templateId this))
        /\ invariant (snd (removeTemplate templateId this)) = true
        /\ (forall e, fst (removeTemplate templateId this) = Throw e ->
                      snd (removeTemplate templateId this) = this))
    /\ (uniqueKeys (snd (createCustomTemplate templateConfig this))
        /\ invariant (snd (createCustomTemplate templateConfig this)) = true
        /\ (forall e, fst (createCustomTemplate templateConfig this) = Throw e ->
                      snd (createCustomTemplate templateConfig this) = this)).
Proof.
  intros this template templateId templateConfig Hkeys Hinv.
  split; [exact (addTemplate_preserves template this Hkeys Hinv)|].
  split; [exact (removeTemplate_preserves templateId this Hkeys Hinv)|].
  exact (createCustomTemplate_preserves templateConfig this Hkeys Hinv).
Qed.

Lemma methods_keep_invariant_witness :
  uniqueKeys constructor /\ invariant constructor = true
  /\ invariant (snd (removeTemplate (js "business") constructor)) = true.
Proof.
  split; [exact constructor_uniqueKeys|]. split; [reflexivity|].
  exact (proj1 (proj2 (proj1 (proj2
    (methods_keep_invariant constructor None (js "business")
       (mkTemplateConfig None None None None None)
       constructor_uniqueKeys eq_refl))))).
Defined.

(** X9: [addTemplate] succeeds exactly when the template has a non-empty
    id and name and a function as [selectTemplate], and [this.templates]
    holds nothing truthy under the id: neither a registered template nor a
    member inherited from [Object.prototype].  In every other case it
    throws and the repository is as before. *)
Theorem addTemplate_succeeds_iff :
  forall (this : Repository) (t : Template),
    (fst (addTemplate (Some t) this) = Ok tt <->
     truthyOpt (id t) = true /\ truthyOpt (name t) = true
     /\ (exists f, selectTemplate t = Some (Function f))
     /\ getOwn (templates this) (propertyKey (id t)) = None
     /\ isInherited (propertyKey (id t)) = false)
    /\ (fst (addTemplate (Some t) this) <> Ok tt ->
        snd (addTemplate (Some t) this) = this).
Proof.
  intros this t. rewrite addTemplate_unfold.
  pose proof (getProp_falsy (templates this) (propertyKey (id t))) as Hfalsy.
  destruct (truthyOpt (id t)), (truthyOpt (name t));
    cbn [negb orb fst snd];
    try (split; [split; [discriminate | intros (? & ? & _); discriminate]
                | reflexivity]).
  destruct (selectTemplate t) as [[|f]|]; cbn [fst snd].
  - destruct (truthyValue _); cbn [fst snd];
      (split; [split; [discriminate
                      | intros (_ & _ & [f Hf] & _); discriminate]
              | reflexivity]).
  - destruct (truthyValue _); cbn [fst snd].
    + split; [|reflexivity]. split; [discriminate|].
      intros (_ & _ & _ & Hown & Hname).
      assert (true = false) by (apply Hfalsy; auto). discriminate.
    + split; [|congruence]. split; [|reflexivity].
      intros _. destruct (proj1 Hfalsy eq_refl) as [Hown Hname].
      repeat split; eauto.
  - split; [split; [discriminate | intros (_ & _ & [f Hf] & _); discriminate]
           | reflexivity].
Qed.

Lemma addTemplate_stores (this : Repository) (t : Template) :
  fst (addTemplate (Some t) this) = Ok tt ->
  getTemplateById (snd (addTemplate (Some t) this)) (propertyKey (id t))
    = VTemplate t
  /\ (forall key, key <> propertyKey (id t) ->
        getProp (templates (snd (addTemplate (Some t) this))) key
        = getProp (templates this) key)
  /\ defaultTemplate (snd (addTemplate (Some t) this)) = defaultTemplate this.
Proof.
  rewrite addTemplate_unfold.
  destruct (_ || _); [discriminate|].
  destruct (truthyValue _); [discriminate|].
  destruct (selectTemplate t) as [[|f]|]; try discriminate.
  intros _. cbn [fst snd templates defaultTemplate].
  unfold getTemplateById, getProp. cbn [templates].
  split; [|split; [|reflexivity]].
  - now rewrite getOwn_setOwn, str_eqb_refl.
  - intros key Hkey. rewrite getOwn_setOwn.
    destruct (str_eqb (propertyKey (id t)) key) eqn:E; [|reflexivity].
    apply str_eqb_eq in E. congruence.
Qed.

(** X10: after a successful [addTemplate], [getTemplateById] returns the
    very template under its id, every other key reads as before, and the
    default template is unchanged. *)
Theorem addTemplate_then_lookup :
  forall (this : Repository) (t : Template),
    fst (addTemplate (Some t) this) = Ok tt ->
    getTemplateById (snd (addTemplate (Some t) this)) (propertyKey (id t))
      = VTemplate t
    /\ (forall key, key <> propertyKey (id t) ->
          getProp (templates (snd (addTemplate (Some t) this))) key
          = getProp (templates this) key)
    /\ defaultTemplate (snd (addTemplate (Some t) this)) = defaultTemplate this.
Proof. intros this t. apply addTemplate_stores. Qed.

Lemma addTemplate_then_lookup_witness :
  fst (addTemplate
         (Some (mkTemplate (Some (js "magazine")) (Some (js "杂志风格")) None
                  (Some (Function _selectSimpleTemplate))))
         constructor) = Ok tt
  /\ getTemplateById
       (snd (addTemplate
               (Some (mkTemplate (Some (js "magazine")) (Some (js "杂志风格")) None
                        (Some (Function _selectSimpleTemplate))))
               constructor))
       (js "magazine")
     = VTemplate (mkTemplate (Some (js "magazine")) (Some (js "杂志风格")) None
                    (Some (Function _selectSimpleTemplate))).
Proof.
  split; [reflexivity|].
  exact (proj1 (addTemplate_then_lookup constructor
           (mkTemplate (Some (js "magazine")) (Some (js "杂志风格")) None
              (Some (Function _selectSimpleTemplate)))
           eq_refl)).
Defined.

(** X11: removing a template right after adding it gives the repository
    back as it was, when the repository was sound before. *)
Theorem addTemplate_then_removeTemplate :
  forall (this : Repository) (t : Template),
    invariant this = true ->
    fst (addTemplate (Some t) this) = Ok tt ->
    removeTemplate (propertyKey (id t)) (snd (addTemplate (Some t) this))
    = (Ok tt, this).
Proof.
  intros this t Hinv. rewrite addTemplate_unfold.
  destruct (negb (truthyOpt (id t)) || negb (truthyOpt (name t))
            || match selectTemplate t with None => true | Some _ => false end)
    eqn:Hvalid; [discriminate|].
  destruct (truthyValue (getProp (templates this) (propertyKey (id t))))
    eqn:Hfalsy; [discriminate|].
  destruct (selectTemplate t) as [[|f]|]; try discriminate.
  intros _. cbn [snd].
  apply getProp_falsy in Hfalsy. destruct Hfalsy as [Hown Hname].
  assert (Hid : truthyOpt (id t) = true)
    by (destruct (truthyOpt (id t)); [reflexivity | discriminate]).
  rewrite removeTemplate_unfold, objectKeys_length. cbn [templates defaultTemplate].
  assert (Hkey : truthy (propertyKey (id t)) = true)
    by (destruct (id t); [exact Hid | discriminate]).
  rewrite Hkey. cbn [negb]. unfold getProp at 1.
  rewrite getOwn_setOwn, str_eqb_refl. cbn [truthyValue negb].
  rewrite (setOwn_absent _ _ t Hown), length_app.
  destruct (invariant_registered _ Hinv) as (Hne & d & Hd & Hreg).
  replace (List.length (templates this) + List.length [(propertyKey (id t), t)]
           <=? 1)%nat with false.
  2:{ symmetry. apply Nat.leb_gt. destruct (templates this); [congruence|].
      cbn. lia. }
  cbv zeta. rewrite deleteOwn_app, (deleteOwn_absent _ _ Hown).
  replace (deleteOwn [(propertyKey (id t), t)] (propertyKey (id t)))
    with (@nil (jsstring * Template))
    by (unfold deleteOwn; cbn [filter fst]; now rewrite str_eqb_refl).
  rewrite app_nil_r, Hd.
  destruct (str_eqb d (propertyKey (id t))) eqn:E.
  - apply str_eqb_eq in E. subst d. unfold registered in Hreg.
    rewrite Hown in Hreg. discriminate.
  - rewrite <- Hd. now rewrite repository_eta.
Qed.

Lemma addTemplate_then_removeTemplate_witness :
  invariant constructor = true
  /\ fst (addTemplate
            (Some (mkTemplate (Some (js "magazine")) (Some (js "杂志风格")) None
                     (Some (Function _selectSimpleTemplate))))
            constructor) = Ok tt
  /\ removeTemplate (js "magazine")
       (snd (addTemplate
               (Some (mkTemplate (Some (js "magazine")) (Some (js "杂志风格")) None
                        (Some (Function _selectSimpleTemplate))))
               constructor))
     = (Ok tt, constructor).
Proof.
  split; [reflexivity|]. split; [reflexivity|].
  exact (addTemplate_then_removeTemplate constructor
           (mkTemplate (Some (js "magazine")) (Some (js "杂志风格")) None
              (Some (Function _selectSimpleTemplate)))
           eq_refl eq_refl).
Defined.

(** X12: a successful [removeTemplate] removes the template under the
    given id and no other: every other key reads as before, and the
    default template is unchanged unless it was the one removed. *)
Theorem removeTemplate_removes_only_that :
  forall (this : Repository) (templateId : jsstring),
    fst (removeTemplate templateId this) = Ok tt ->
    getOwn (templates (snd (removeTemplate templateId this))) templateId = None
    /\ (forall key, key <> templateId ->
          getProp (templates (snd (removeTemplate templateId this))) key
          = getProp (templates this) key)
    /\ (defaultTemplate this <> Some templateId ->
        defaultTemplate (snd (removeTemplate templateId this))
        = defaultTemplate this).
Proof.
  intros this templateId. rewrite removeTemplate_unfold.
  destruct (negb (truthy templateId)); [discriminate|].
  destruct (negb (truthyValue _)); [discriminate|].
  destruct (_ <=? 1)%nat; [discriminate|].
  intros _. cbv zeta. cbn [snd].
  assert (Htemplates :
    forall d, templates
      (match defaultTemplate this with
       | Some d0 =>
         if str_eqb d0 templateId
         then mkRepository (deleteOwn (templates this) templateId) d
         else mkRepository (deleteOwn (templates this) templateId) (Some d0)
       | None => mkRepository (deleteOwn (templates this) templateId) None
       end) = deleteOwn (templates this) templateId).
  { intros d. destruct (defaultTemplate this) as [d0|]; [|reflexivity].
    destruct (str_eqb d0 templateId); reflexivity. }
  rewrite Htemplates. split; [|split].
  - now rewrite getOwn_deleteOwn, str_eqb_refl.
  - intros key Hkey. unfold getProp. rewrite getOwn_deleteOwn.
    destruct (str_eqb templateId key) eqn:E; [|reflexivity].
    apply str_eqb_eq in E. congruence.
  - intros Hdefault. destruct (defaultTemplate this) as [d0|]; [|reflexivity].
    destruct (str_eqb d0 templateId) eqn:E; [|reflexivity].
    apply str_eqb_eq in E. congruence.
Qed.

Lemma removeTemplate_removes_only_that_witness :
  fst (removeTemplate (js "simple") constructor) = Ok tt
  /\ getOwn (templates (snd (removeTemplate (js "simple") constructor)))
       (js "simple") = None.
Proof.
  split; [reflexivity|].
  exact (proj1 (removeTemplate_removes_only_that constructor (js "simple") eq_refl)).
Defined.

(** X13: for the name of a member of [Object.prototype] that is no
    registered id, [removeTemplate] reports success although it removes
    nothing: with two or more templates registered and another default,
    the call returns normally and the repository is as before. *)
Theorem removeTemplate_inherited_name :
  forall (this : Repository) (templateId : jsstring),
    isInherited templateId = true ->
    getOwn (templates this) templateId = None ->
    (2 <= List.length (templates this))%nat ->
    defaultTemplate this <> Some templateId ->
    removeTemplate templateId this = (Ok tt, this).
Proof.
  intros this templateId Hname Hown Hcount Hdefault.
  rewrite removeTemplate_unfold, objectKeys_length.
  assert (Htruthy : truthy templateId = true).
  { destruct templateId; [vm_compute in Hname; discriminate | reflexivity]. }
  rewrite Htruthy. unfold getProp. rewrite Hown, Hname. cbn [truthyValue negb].
  replace (List.length (templates this) <=? 1)%nat with false
    by (symmetry; apply Nat.leb_gt; lia).
  cbv zeta. rewrite (deleteOwn_absent _ _ Hown). f_equal.
  destruct (defaultTemplate this) as [d|] eqn:Hd.
  - destruct (str_eqb d templateId) eqn:E.
    + apply str_eqb_eq in E. congruence.
    + rewrite <- Hd. apply repository_eta.
  - rewrite <- Hd. apply repository_eta.
Qed.

Lemma removeTemplate_inherited_name_witness :
  isInherited (js "valueOf") = true
  /\ getOwn (templates constructor) (js "valueOf") = None
  /\ removeTemplate (js "valueOf") constructor = (Ok tt, constructor).
Proof.
  split; [reflexivity|]. split; [reflexivity|].
  apply (removeTemplate_inherited_name constructor (js "valueOf"));
    [reflexivity | reflexivity | cbn; lia | discriminate].
Defined.

(** X14: after [setDefaultTemplate] with a registered id,
    [getDefaultTemplate] returns the template registered under that id,
    and the registered templates are the same as before. *)
Theorem setDefaultTemplate_then_getDefaultTemplate :
  forall (this : Repository) (templateId : jsstring) (t : Template),
    getOwn (templates this) templateId = Some t ->
    getDefaultTemplate (snd (setDefaultTemplate templateId this)) = VTemplate t
    /\ templates (snd (setDefaultTemplate templateId this)) = templates this.
Proof.
  intros this templateId t Hown. rewrite setDefaultTemplate_unfold.
  unfold getProp. rewrite Hown. cbn [truthyValue snd].
  unfold getDefaultTemplate, getProp. cbn [templates defaultTemplate propertyKey].
  now rewrite Hown.
Qed.

Lemma setDefaultTemplate_then_getDefaultTemplate_witness :
  getOwn (templates constructor) (js "education")
    = Some (snd (builtIn "education" "教育风格" "适用于教育类文章的模板风格"
                   _selectEducationTemplate))
  /\ getDefaultTemplate (snd (setDefaultTemplate (js "education") constructor))
     = VTemplate (snd (builtIn "education" "教育风格" "适用于教育类文章的模板风格"
                         _selectEducationTemplate)).
Proof.
  split; [reflexivity|].
  exact (proj1 (setDefaultTemplate_then_getDefaultTemplate constructor
                  (js "education")
                  (snd (builtIn "education" "教育风格" "适用于教育类文章的模板风格"
                          _selectEducationTemplate))
                  eq_refl)).
Defined.

(** ** Custom templates *)

Section CustomTemplates.

(** The template [createCustomTemplate] builds, when it returns one. *)
Lemma createCustomTemplate_result templateConfig this nt this' :
  createCustomTemplate templateConfig this = (Ok nt, this') ->
  let base :=
    if truthyOpt (cfg_baseTemplate templateConfig)
       && truthyValue (getProp (templates this)
                         (propertyKey (cfg_baseTemplate templateConfig)))
    then getProp (templates this) (propertyKey (cfg_baseTemplate templateConfig))
    else getDefaultTemplate this in
  id nt = cfg_id templateConfig
  /\ name nt = cfg_name templateConfig
  /\ (forall rules, cfg_imageRules templateConfig = Some rules ->
        selectTemplate nt = Some (Function (_createCustomSelectTemplate rules)))
  /\ (cfg_imageRules templateConfig = None ->
        exists bt, base = VTemplate bt /\ selectTemplate nt = selectTemplate bt)
  /\ (truthyOpt (cfg_description templateConfig) = true ->
        description nt = cfg_description templateConfig)
  /\ addTemplate (Some nt) this = (Ok tt, this').
Proof.
  unfold createCustomTemplate. rewrite bind_get. cbv zeta.
  destruct (negb (truthyOpt (cfg_id templateConfig))
            || negb (truthyOpt (cfg_name templateConfig)));
    [discriminate|].
  destruct (truthyValue (getProp (templates this)
                           (propertyKey (cfg_id templateConfig))));
    [discriminate|].
  set (base :=
         if truthyOpt (cfg_baseTemplate templateConfig)
            && truthyValue (getProp (templates this)
                              (propertyKey (cfg_baseTemplate templateConfig)))
         then getProp (templates this) (propertyKey (cfg_baseTemplate templateConfig))
         else getDefaultTemplate this).
  clearbody base.
  destruct (cfg_imageRules templateConfig) as [rules|];
    destruct (truthyOpt (cfg_description templateConfig));
    destruct base;
    cbn [readSelectTemplate readDescription];
    rewrite ?bind_ret, ?bind_throw;
    cbn [readSelectTemplate readDescription];
    rewrite ?bind_ret, ?bind_throw;
    try discriminate;
    unfold bind, ret;
    match goal with
    | |- context [addTemplate (Some ?t) this] =>
      destruct (addTemplate (Some t) this) as [[[]|e] this''] eqn:Hadd
    end;
    try discriminate;
    intros Hres; inversion Hres; subst; cbn [id name selectTemplate description];
    repeat split; try reflexivity; try discriminate;
    try (intros rules' Hr; inversion Hr; reflexivity);
    try (intros _; eexists; split; reflexivity).
  all: try (rewrite addTemplate_unfold in Hadd;
            cbn [selectTemplate] in Hadd;
            rewrite !orb_true_r in Hadd; discriminate).
  all: assumption.
Qed.

End CustomTemplates.

(** X15: when [createCustomTemplate] is given image rules and returns a
    template, that template is registered under the id of the
    configuration, carries its id and name, and selects the layout by the
    two thresholds of the rules; the default template stays as it was. *)
Theorem createCustomTemplate_with_rules :
  forall (this this' : Repository) (templateConfig : TemplateConfig)
         (rules : ImageRules) (nt : Template),
    cfg_imageRules templateConfig = Some rules ->
    createCustomTemplate templateConfig this = (Ok nt, this') ->
    id nt = cfg_id templateConfig
    /\ name nt = cfg_name templateConfig
    /\ getTemplateById this' (propertyKey (cfg_id templateConfig)) = VTemplate nt
    /\ (forall imageCount,
          callSelectTemplate
            (getTemplateById this' (propertyKey (cfg_id templateConfig))) imageCount
          = Ok (_createCustomSelectTemplate rules imageCount))
    /\ defaultTemplate this' = defaultTemplate this.
Proof.
  intros this this' templateConfig rules nt Hrules Hres.
  destruct (createCustomTemplate_result _ _ _ _ Hres)
    as (Hid & Hname & Hsel & _ & _ & Hadd).
  assert (Hok : fst (addTemplate (Some nt) this) = Ok tt) by now rewrite Hadd.
  destruct (addTemplate_stores this nt Hok) as (Hlookup & _ & Hdefault).
  rewrite Hadd in Hlookup, Hdefault. cbn [snd] in Hlookup, Hdefault.
  rewrite Hid in Hlookup.
  repeat split; try assumption.
  intros imageCount. rewrite Hlookup. cbn [callSelectTemplate].
  now rewrite (Hsel rules Hrules).
Qed.

Lemma createCustomTemplate_with_rules_witness :
  cfg_imageRules
    (mkTemplateConfig (Some (js "magazine")) (Some (js "杂志风格")) None None
       (Some (mkImageRules (Some 4%Z) (Some 2%Z))))
  = Some (mkImageRules (Some 4%Z) (Some 2%Z))
  /\ callSelectTemplate
       (getTemplateById
          (snd (createCustomTemplate
                  (mkTemplateConfig (Some (js "magazine")) (Some (js "杂志风格"))
                     None None (Some (mkImageRules (Some 4%Z) (Some 2%Z))))
                  constructor))
          (js "magazine")) 3
     = Ok double_image_with_caption.
Proof.
  split; [reflexivity|].
  exact (proj1 (proj2 (proj2 (proj2
    (createCustomTemplate_with_rules constructor
       (snd (createCustomTemplate
               (mkTemplateConfig (Some (js "magazine")) (Some (js "杂志风格"))
                  None None (Some (mkImageRules (Some 4%Z) (Some 2%Z))))
               constructor))
       (mkTemplateConfig (Some (js "magazine")) (Some (js "杂志风格")) None None
          (Some (mkImageRules (Some 4%Z) (Some 2%Z))))
       (mkImageRules (Some 4%Z) (Some 2%Z))
       (mkTemplate (Some (js "magazine")) (Some (js "杂志风格"))
          (Some (js "适用于商务类文章的模板风格"))
          (Some (Function (_createCustomSelectTemplate
                             (mkImageRules (Some 4%Z) (Some 2%Z))))))
       eq_refl eq_refl)))) 3%Z).
Defined.

(** X16: when [createCustomTemplate] is given no image rules and returns a
    template, that template selects layouts with the function of its base:
    the template registered under [baseTemplate] when there is one, and
    the default template when [baseTemplate] is missing, empty or not
    registered.  A missing description is taken from the base as well. *)
Theorem createCustomTemplate_inherits :
  forall (this this' : Repository) (templateConfig : TemplateConfig)
         (nt : Template),
    cfg_imageRules templateConfig = None ->
    createCustomTemplate templateConfig this = (Ok nt, this') ->
    exists bt,
      ((exists b, cfg_baseTemplate templateConfig = Some b
                  /\ getOwn (templates this) b = Some bt)
       \/ ((truthyOpt (cfg_baseTemplate templateConfig) = false
            \/ getProp (templates this)
                 (propertyKey (cfg_baseTemplate templateConfig)) = VUndefined)
           /\ getDefaultTemplate this = VTemplate bt))
      /\ selectTemplate nt = selectTemplate bt
      /\ getTemplateById this' (propertyKey (cfg_id templateConfig)) = VTemplate nt.
Proof.
  intros this this' templateConfig nt Hrules Hres.
  destruct (createCustomTemplate_result _ _ _ _ Hres)
    as (Hid & _ & _ & Hbase & _ & Hadd).
  destruct (Hbase Hrules) as (bt & Hbt & Hsel). exists bt.
  assert (Hok : fst (addTemplate (Some nt) this) = Ok tt) by now rewrite Hadd.
  destruct (addTemplate_stores this nt Hok) as (Hlookup & _ & _).
  rewrite Hadd in Hlookup. cbn [snd] in Hlookup. rewrite Hid in Hlookup.
  split; [|split; assumption].
  destruct (truthyOpt (cfg_baseTemplate templateConfig)) eqn:Htruthy;
    cbn [andb] in Hbt; [|right; auto].
  destruct (truthyValue (getProp (templates this)
                           (propertyKey (cfg_baseTemplate templateConfig))))
    eqn:Hfound.
  - left. destruct (cfg_baseTemplate templateConfig) as [b|]; [|discriminate].
    exists b. split; [reflexivity|]. cbn [propertyKey] in Hbt.
    unfold getProp in Hbt. destruct (getOwn (templates this) b); [congruence|].
    destruct (isInherited b); discriminate.
  - right. split; [|exact Hbt]. right.
    unfold getProp in *.
    destruct (getOwn (templates this)
                (propertyKey (cfg_baseTemplate templateConfig)));
      [discriminate|].
    destruct (isInherited _); [discriminate | reflexivity].
Qed.

Lemma createCustomTemplate_inherits_witness :
  cfg_imageRules
    (mkTemplateConfig (Some (js "magazine")) (Some (js "杂志风格")) None
       (Some (js "education")) None) = None
  /\ exists bt,
       getOwn (templates constructor) (js "education") = Some bt
       /\ selectTemplate bt = Some (Function _selectEducationTemplate)
       /\ callSelectTemplate
            (getTemplateById
               (snd (createCustomTemplate
                       (mkTemplateConfig (Some (js "magazine")) (Some (js "杂志风格"))
                          None (Some (js "education")) None)
                       constructor))
               (js "magazine")) 2
          = Ok double_image_with_caption.
Proof.
  split; [reflexivity|].
  destruct (createCustomTemplate_inherits constructor
              (snd (createCustomTemplate
                      (mkTemplateConfig (Some (js "magazine")) (Some (js "杂志风格"))
                         None (Some (js "education")) None)
                      constructor))
              (mkTemplateConfig (Some (js "magazine")) (Some (js "杂志风格")) None
                 (Some (js "education")) None)
              (mkTemplate (Some (js "magazine")) (Some (js "杂志风格"))
                 (Some (js "适用于教育类文章的模板风格"))
                 (Some (Function _selectEducationTemplate)))
              eq_refl eq_refl) as (bt & _ & _ & Hlookup).
  exists (snd (builtIn "education" "教育风格" "适用于教育类文章的模板风格"
                 _selectEducationTemplate)).
  split; [reflexivity|]. split; [reflexivity|].
  cbn [propertyKey cfg_id] in Hlookup. rewrite Hlookup. reflexivity.
Defined.

(** X17: in a selection function built from image rules the no-caption
    threshold is tried first, so when it is not above the with-caption
    threshold the with-caption layout is never selected: the function
    gives no-caption from the no-caption threshold on and single-image
    below it. *)
Theorem createCustomSelectTemplate_shadowed_threshold :
  forall (noCaption withCaption imageCount : Z),
    (noCaption <= withCaption)%Z ->
    _createCustomSelectTemplate
      (mkImageRules (Some noCaption) (Some withCaption)) imageCount
    = if (noCaption <=? imageCount)%Z then double_image_no_caption
      else single_image.
Proof.
  intros noCaption withCaption imageCount Hle.
  unfold _createCustomSelectTemplate, atLeast.
  cbn [minImagesForDoubleNoCaption minImagesForDoubleWithCaption].
  destruct (noCaption <=? imageCount)%Z eqn:Hno; [reflexivity|].
  apply Z.leb_gt in Hno.
  replace (withCaption <=? imageCount)%Z with false
    by (symmetry; apply Z.leb_gt; lia).
  reflexivity.
Qed.

Lemma createCustomSelectTemplate_shadowed_threshold_witness :
  (2 <= 2)%Z
  /\ _createCustomSelectTemplate (mkImageRules (Some 2%Z) (Some 2%Z)) 2
     = double_image_no_caption.
Proof.
  split; [lia|].
  apply (createCustomSelectTemplate_shadowed_threshold 2 2 2). lia.
Defined.

(** X18: the selection functions of the business and creative templates,
    the older [_selectTemplate] kept in the engine and the function built
    from the image rules with thresholds 3 and 1 are one and the same
    function of the image count. *)
Theorem selection_functions_agree :
  forall imageCount : Z,
    _selectBusinessTemplate imageCount = TemplateEngine._selectTemplate imageCount
    /\ _selectCreativeTemplate imageCount = TemplateEngine._selectTemplate imageCount
    /\ _createCustomSelectTemplate (mkImageRules (Some 3%Z) (Some 1%Z)) imageCount
       = TemplateEngine._selectTemplate imageCount.
Proof.
  intros imageCount.
  unfold _selectBusinessTemplate, _selectCreativeTemplate, _selectTemplate,
    _createCustomSelectTemplate, atLeast.
  cbn [minImagesForDoubleNoCaption minImagesForDoubleWithCaption].
  destruct (0 <? imageCount)%Z eqn:H0, (imageCount <=? 2)%Z eqn:H2,
           (3 <=? imageCount)%Z eqn:H3, (1 <=? imageCount)%Z eqn:H1;
    cbn [andb]; repeat split; try reflexivity;
    repeat match goal with
           | H : (_ <? _)%Z = true |- _ => apply Z.ltb_lt in H
           | H : (_ <? _)%Z = false |- _ => apply Z.ltb_ge in H
           | H : (_ <=? _)%Z = true |- _ => apply Z.leb_le in H
           | H : (_ <=? _)%Z = false |- _ => apply Z.leb_gt in H
           end; lia.
Qed.

(** ** Registered templates can be applied *)

Section Callable.

Lemma setOwn_callable props key t f :
  (forall k v, getOwn props k = Some v ->
               exists g, selectTemplate v = Some (Function g)) ->
  selectTemplate t = Some (Function f) ->
  forall k v, getOwn (setOwn props key t) k = Some v ->
              exists g, selectTemplate v = Some (Function g).
Proof.
  intros Hall Ht k v. rewrite getOwn_setOwn.
  destruct (str_eqb key k); [|apply Hall].
  intros H. inversion H; subst. eauto.
Qed.

Lemma deleteOwn_callable props key :
  (forall k v, getOwn props k = Some v ->
               exists g, selectTemplate v = Some (Function g)) ->
  forall k v, getOwn (deleteOwn props key) k = Some v ->
              exists g, selectTemplate v = Some (Function g).
Proof.
  intros Hall k v. rewrite getOwn_deleteOwn.
  destruct (str_eqb key k); [discriminate | apply Hall].
Qed.

Lemma addTemplate_callable template this :
  callable this -> callable (snd (addTemplate template this)).
Proof.
  intros Hcall. destruct template as [t|]; [|exact Hcall].
  rewrite addTemplate_unfold.
  destruct (_ || _); [exact Hcall|].
  destruct (truthyValue _); [exact Hcall|].
  destruct (selectTemplate t) as [[|f]|] eqn:Hsel; try exact Hcall.
  cbn [snd]. unfold callable. cbn [templates].
  now apply setOwn_callable with (f := f).
Qed.

Lemma removeTemplate_callable templateId this :
  callable this -> callable (snd (removeTemplate templateId this)).
Proof.
  intros Hcall. rewrite removeTemplate_unfold.
  destruct (negb (truthy templateId)); [exact Hcall|].
  destruct (negb (truthyValue _)); [exact Hcall|].
  destruct (_ <=? 1)%nat; [exact Hcall|].
  cbv zeta. cbn [snd].
  destruct (defaultTemplate this) as [d|];
    [destruct (str_eqb d templateId)|];
    unfold callable; cbn [templates]; now apply deleteOwn_callable.
Qed.

Lemma createCustomTemplate_callable templateConfig this :
  callable this -> callable (snd (createCustomTemplate templateConfig this)).
Proof.
  intros Hcall.
  destruct (createCustomTemplate_cases templateConfig this)
    as [[e ->] | [newTemplate ->]]; [exact Hcall|].
  pose proof (addTemplate_callable (Some newTemplate) this Hcall) as Hadd.
  destruct (addTemplate (Some newTemplate) this) as [[u|e] this']; exact Hadd.
Qed.

Lemma setDefaultTemplate_callable templateId this :
  callable this -> callable (snd (setDefaultTemplate templateId this)).
Proof.
  intros Hcall. rewrite setDefaultTemplate_unfold. cbn [snd].
  destruct (truthyValue _); exact Hcall.
Qed.

End Callable.

(** X19: the four methods that change the repository keep every
    registered template callable: when each registered template has a
    function as [selectTemplate] before [addTemplate], [removeTemplate],
    [createCustomTemplate] or [setDefaultTemplate], each has one after. *)
Theorem methods_keep_templates_callable :
  forall (this : Repository) (template : option Template)
         (templateId : jsstring) (templateConfig : TemplateConfig),
    callable this ->
    callable (snd (addTemplate template this))
    /\ callable (snd (removeTemplate templateId this))
    /\ callable (snd (createCustomTemplate templateConfig this))
    /\ callable (snd (setDefaultTemplate templateId this)).
Proof.
  intros this template templateId templateConfig Hcall.
  split; [now apply addTemplate_callable|].
  split; [now apply removeTemplate_callable|].
  split; [now apply createCustomTemplate_callable|].
  now apply setDefaultTemplate_callable.
Qed.

Lemma methods_keep_templates_callable_witness :
  callable constructor
  /\ callable (snd (removeTemplate (js "simple") constructor)).
Proof.
  split; [exact constructor_callable|].
  exact (proj1 (proj2 (methods_keep_templates_callable constructor None
           (js "simple") (mkTemplateConfig None None None None None)
           constructor_callable))).
Defined.

Lemma applyTemplate_total (this : Repository) (content : ParsedContent)
    (templateId : option jsstring) :
  callable this ->
  registered this
    (if truthyOpt templateId then propertyKey templateId
     else propertyKey (defaultTemplate this)) = true ->
  exists html, applyTemplate this content templateId = Ok html.
Proof.
  intros Hcall Hreg.
  unfold applyTemplate, getTemplateById, getDefaultTemplate, getProp.
  unfold registered in Hreg.
  destruct (truthyOpt templateId);
    match type of Hreg with
    | match getOwn ?p ?k with _ => _ end = true =>
      destruct (getOwn p k) as [t|] eqn:Hown; [|discriminate]
    end;
    destruct (Hcall _ _ Hown) as [f Hf];
    cbn [truthyValue callSelectTemplate]; rewrite Hf; eauto.
Qed.

(** X20: [applyTemplate] returns markup, and does not throw, whenever
    every registered template is callable and the template it looks up is
    registered: the one under the given id, or under the default id when
    the id is left out or empty. *)
Theorem applyTemplate_registered_succeeds :
  forall (this : Repository) (content : ParsedContent)
         (templateId : option jsstring),
    callable this ->
    registered this
      (if truthyOpt templateId then propertyKey templateId
       else propertyKey (defaultTemplate this)) = true ->
    exists html, applyTemplate this content templateId = Ok html.
Proof. intros. now apply applyTemplate_total. Qed.

Lemma applyTemplate_registered_succeeds_witness :
  callable constructor
  /\ registered constructor (js "business") = true
  /\ exists html,
       applyTemplate constructor
         (mkParsedContent (js "标题") [mkSection type_text (js "正文。") 1]) None
       = Ok html.
Proof.
  split; [exact constructor_callable|]. split; [reflexivity|].
  exact (applyTemplate_registered_succeeds constructor
           (mkParsedContent (js "标题") [mkSection type_text (js "正文。") 1]) None
           constructor_callable eq_refl).
Defined.

(** X21: once [setDefaultTemplate] has taken the name of a member of
    [Object.prototype] for a template id, every [applyTemplate] without a
    template id throws, whatever the content. *)
Theorem applyTemplate_after_inherited_default :
  forall (this : Repository) (templateId : jsstring) (content : ParsedContent),
    isInherited templateId = true ->
    getOwn (templates this) templateId = None ->
    applyTemplate (snd (setDefaultTemplate templateId this)) content None
    = Throw (ApplyFailed TypeError).
Proof.
  intros this templateId content Hname Hown.
  rewrite setDefaultTemplate_unfold. unfold getProp at 1.
  rewrite Hown, Hname. cbn [truthyValue snd].
  unfold applyTemplate, getDefaultTemplate, getProp.
  cbn [truthyOpt templates defaultTemplate propertyKey].
  now rewrite Hown, Hname.
Qed.

Lemma applyTemplate_after_inherited_default_witness :
  isInherited (js "toString") = true
  /\ getOwn (templates constructor) (js "toString") = None
  /\ applyTemplate (snd (setDefaultTemplate (js "toString") constructor))
       (mkParsedContent (js "标题") []) None
     = Throw (ApplyFailed TypeError).
Proof.
  split; [reflexivity|]. split; [reflexivity|].
  exact (applyTemplate_after_inherited_default constructor (js "toString")
           (mkParsedContent (js "标题") []) eq_refl eq_refl).
Defined.

(** ** The renderer, section by section *)

Section RendererMore.

Variable templateId : option jsstring.

Lemma captionSlots_app (h1 h2 : Html) :
  captionSlots (h1 ++ h2) = captionSlots h1 ++ captionSlots h2.
Proof.
  induction h1 as [|b h1 IH]; [reflexivity|].
  destruct b; cbn [app captionSlots]; rewrite IH; reflexivity.
Qed.

(** Every section adds at most one block, and exactly one when its type
    is known. *)
Lemma processSection_length template imageCaptions st section :
  List.length (html (processSection template templateId imageCaptions st section))
  = (List.length (html st) + (if knownType section then 1 else 0))%nat.
Proof.
  unfold processSection, knownType, captionBlock,
    _getCreativeImageWithCaptionBlock, _getImageWithCaptionBlock.
  destruct (type section); cbn [SectionType_eqb negb];
    try destruct template;
    try destruct (captionHoles _ _ _) as [[s1 d1] [s2 d2]];
    destruct (isCreative templateId); cbn [html]; rewrite ?length_app; cbn; lia.
Qed.

Lemma fold_length template imageCaptions sections : forall st,
  List.length
    (html (fold_left (processSection template templateId imageCaptions) sections st))
  = (List.length (html st) + List.length (filter knownType sections))%nat.
Proof.
  induction sections as [|s sections IH]; intros st; cbn [fold_left filter].
  - cbn [List.length]. lia.
  - rewrite IH, processSection_length.
    destruct (knownType s); cbn [List.length]; lia.
Qed.

(** Under the two layouts without captions a section's block depends on
    the section alone. *)
Lemma stateless_step template section :
  template <> double_image_with_caption ->
  exists block,
    captionSlots block = []
    /\ forall imageCaptions st,
         html (processSection template templateId imageCaptions st section)
         = html st ++ block.
Proof.
  intros Hlayout. unfold processSection.
  destruct (type section); try destruct template; try congruence;
    destruct (isCreative templateId);
    try (eexists; split; [|intros; cbn [html]; reflexivity]; reflexivity).
  all: exists []; split; [reflexivity|]; intros; now rewrite app_nil_r.
Qed.

Lemma stateless_fold template sections :
  template <> double_image_with_caption ->
  exists blocks,
    captionSlots blocks = []
    /\ forall imageCaptions st,
         html (fold_left (processSection template templateId imageCaptions)
                         sections st)
         = html st ++ blocks.
Proof.
  intros Hlayout. induction sections as [|s sections IH].
  - exists []. split; [reflexivity|]. intros. cbn. now rewrite app_nil_r.
  - destruct IH as (blocks & Hslots & Hfold).
    destruct (stateless_step template s Hlayout) as (block & Hblock & Hstep).
    exists (block ++ blocks). split.
    + now rewrite captionSlots_app, Hblock, Hslots.
    + intros imageCaptions st. cbn [fold_left].
      now rewrite Hfold, Hstep, app_assoc.
Qed.

End RendererMore.

(** X22: whatever the layout, the renderer emits exactly one block for
    each section of type text, subtitle or image, and nothing for a
    section of any other type. *)
Theorem processContentSections_one_block_per_section :
  forall (sections : list Section) (template : LayoutType)
         (templateId : option jsstring),
    List.length (_processContentSections sections template templateId)
    = List.length (filter knownType sections).
Proof.
  intros sections template templateId. unfold _processContentSections.
  now rewrite fold_length.
Qed.

(** X23: under the single-image and the no-caption layouts the markup of
    a document is the markup of its parts put together, and it shows no
    caption at all: the captions of the image sections are dropped. *)
Theorem processContentSections_without_captions :
  forall (before after : list Section) (template : LayoutType)
         (templateId : option jsstring),
    template <> double_image_with_caption ->
    _processContentSections (before ++ after) template templateId
      = _processContentSections before template templateId
        ++ _processContentSections after template templateId
    /\ captionSlots (_processContentSections (before ++ after) template templateId)
       = [].
Proof.
  intros before after template templateId Hlayout.
  unfold _processContentSections.
  destruct (stateless_fold templateId template before Hlayout)
    as (b1 & Hs1 & Hf1).
  destruct (stateless_fold templateId template after Hlayout)
    as (b2 & Hs2 & Hf2).
  rewrite fold_left_app, !Hf2, !Hf1. cbn [html app]. split; [reflexivity|].
  now rewrite captionSlots_app, Hs1, Hs2.
Qed.

Lemma processContentSections_without_captions_witness :
  double_image_no_caption <> double_image_with_caption
  /\ captionSlots
       (_processContentSections
          ([mkSection type_image (js "图1 校门") 1]
           ++ [mkSection type_image (js "图2 操场") 2;
               mkSection type_image (js "图3 食堂") 3])
          double_image_no_caption (Some (js "business")))
     = [].
Proof.
  assert (H : double_image_no_caption <> double_image_with_caption)
    by discriminate.
  split; [exact H|].
  exact (proj2 (processContentSections_without_captions
                  [mkSection type_image (js "图1 校门") 1]
                  [mkSection type_image (js "图2 操场") 2;
                   mkSection type_image (js "图3 食堂") 3]
                  double_image_no_caption (Some (js "business")) H)).
Defined.

(** ** Captions and placeholders under the with-caption layout *)

Section CaptionSlots.

Variable templateId : option jsstring.
Variable imageCaptions : list jsstring.

Lemma captionAt_here (before rest : list jsstring) (c : jsstring) :
  imageCaptions = before ++ c :: rest ->
  captionAt imageCaptions (Z.of_nat (List.length before)) = c.
Proof.
  intros ->. unfold captionAt. rewrite length_app. cbn [List.length].
  replace (Z.of_nat (List.length before)
           <? Z.of_nat (List.length before + S (List.length rest)))%Z with true
    by (symmetry; apply Z.ltb_lt; lia).
  rewrite Nat2Z.id, nth_middle. reflexivity.
Qed.

Lemma captionAt_beyond (k : Z) :
  (Z.of_nat (List.length imageCaptions) <= k)%Z -> captionAt imageCaptions k = [].
Proof.
  intros Hk. unfold captionAt.
  replace (k <? Z.of_nat (List.length imageCaptions))%Z with false
    by (symmetry; apply Z.ltb_ge; lia).
  reflexivity.
Qed.

Lemma captionSlots_captionBlock i c1 c2 (h : Html) :
  captionSlots (captionBlock templateId i c1 c2 ++ h)
  = orElse c1 (captionNumber1 i ++ js " 图注")
    :: orElse c2 (captionNumber2 i ++ js " 图注") :: captionSlots h.
Proof.
  unfold captionBlock, _getCreativeImageWithCaptionBlock,
    _getImageWithCaptionBlock, captionHoles.
  destruct (isCreative templateId); reflexivity.
Qed.

Lemma placeholder1 i : isPlaceholder (captionNumber1 i ++ js " 图注") = true.
Proof. reflexivity. Qed.

Lemma placeholder2 i : isPlaceholder (captionNumber2 i ++ js " 图注") = true.
Proof. reflexivity. Qed.

Lemma orElse_full (c d : jsstring) : c <> [] -> orElse c d = c.
Proof. destruct c; [congruence | reflexivity]. Qed.

(** Blocks taken with the cursor past the last caption show placeholders
    only. *)
Lemma captionBlocks_beyond (n : nat) : forall i k,
  (Z.of_nat (List.length imageCaptions) <= k)%Z ->
  exists placeholders,
    captionSlots (captionBlocks templateId imageCaptions n i k) = placeholders
    /\ List.length placeholders = (2 * n)%nat
    /\ Forall (fun p => isPlaceholder p = true) placeholders.
Proof.
  induction n as [|n IH]; intros i k Hk; cbn [captionBlocks].
  - exists []. repeat split. constructor.
  - destruct (IH (i + 2)%Z (k + 2)%Z) as (ph & Hslots & Hlen & Hall); [lia|].
    rewrite captionSlots_captionBlock, Hslots,
      !captionAt_beyond by lia.
    eexists. split; [reflexivity|]. split; [cbn [List.length]; lia|].
    constructor; [apply placeholder1|].
    constructor; [apply placeholder2 | exact Hall].
Qed.

(** Blocks taken with the cursor at the captions still unread show those
    captions first, each once, and placeholders after them. *)
Lemma captionBlocks_slots (n : nat) : forall (before rest : list jsstring) i,
  imageCaptions = before ++ rest ->
  Forall (fun c : jsstring => c <> []) rest ->
  (List.length rest <= 2 * n)%nat ->
  exists placeholders,
    captionSlots (captionBlocks templateId imageCaptions n i
                    (Z.of_nat (List.length before)))
    = rest ++ placeholders
    /\ (List.length rest + List.length placeholders = 2 * n)%nat
    /\ Forall (fun p => isPlaceholder p = true) placeholders.
Proof.
  induction n as [|n IH]; intros before rest i Hcaps Hfull Hlen.
  - destruct rest; [|cbn in Hlen; lia]. exists []. repeat split. constructor.
  - cbn [captionBlocks]. rewrite captionSlots_captionBlock.
    destruct rest as [|c1 [|c2 rest]].
    + rewrite app_nil_r in Hcaps.
      destruct (captionBlocks_beyond n (i + 2)%Z
                  (Z.of_nat (List.length before) + 2)%Z)
        as (ph & Hslots & Hphlen & Hall); [rewrite Hcaps; lia|].
      rewrite Hslots, !captionAt_beyond by (rewrite Hcaps; lia).
      eexists. split; [reflexivity|]. split; [cbn [List.length]; lia|].
      constructor; [apply placeholder1|].
    constructor; [apply placeholder2 | exact Hall].
    + destruct (captionBlocks_beyond n (i + 2)%Z
                  (Z.of_nat (List.length before) + 2)%Z)
        as (ph & Hslots & Hphlen & Hall).
      { rewrite Hcaps, length_app. cbn [List.length]. lia. }
      rewrite Hslots, (captionAt_here before [] c1 Hcaps).
      rewrite captionAt_beyond
        by (rewrite Hcaps, length_app; cbn [List.length]; lia).
      pose proof (Forall_inv Hfull) as Hc1. cbv beta in Hc1.
      rewrite orElse_full by assumption.
      eexists. split; [reflexivity|]. split; [cbn [List.length]; lia|].
      constructor; [apply placeholder2 | exact Hall].
    + pose proof (Forall_inv Hfull) as Hc1.
      pose proof (Forall_inv (Forall_inv_tail Hfull)) as Hc2.
      pose proof (Forall_inv_tail (Forall_inv_tail Hfull)) as Hrest.
      cbv beta in Hc1, Hc2.
      rewrite (captionAt_here before (c2 :: rest) c1 Hcaps).
      assert (Hcaps2 : imageCaptions = (before ++ [c1]) ++ c2 :: rest)
        by (rewrite <- app_assoc; exact Hcaps).
      pose proof (captionAt_here (before ++ [c1]) rest c2 Hcaps2) as Hsecond.
      rewrite length_app in Hsecond. cbn [List.length] in Hsecond.
      replace (Z.of_nat (List.length before + 1))
        with (Z.of_nat (List.length before) + 1)%Z in Hsecond by lia.
      rewrite Hsecond, !orElse_full by assumption.
      assert (Hcaps3 : imageCaptions = (before ++ [c1; c2]) ++ rest)
        by (rewrite <- app_assoc; exact Hcaps).
      destruct (IH (before ++ [c1; c2]) rest (i + 2)%Z Hcaps3 Hrest)
        as (ph & Hslots & Hphlen & Hall); [cbn [List.length] in Hlen; lia|].
      rewrite length_app in Hslots. cbn [List.length] in Hslots.
      replace (Z.of_nat (List.length before + 2))
        with (Z.of_nat (List.length before) + 2)%Z in Hslots by lia.
      rewrite Hslots. exists ph. split; [reflexivity|].
      split; [cbn [List.length] in *; lia | exact Hall].
Qed.

(** The image index is odd at every block, so the two addresses are always
    the first and the second of [imageSources]. *)
Lemma captionBlocks_sources (n : nat) : forall i k,
  (0 < i)%Z -> Z.odd i = true ->
  Forall (fun b => captionSources b
                   = Some (nth 0 imageSources [], nth 1 imageSources []))
         (captionBlocks templateId imageCaptions n i k).
Proof.
  induction n as [|n IH]; intros i k Hpos Hodd; cbn [captionBlocks];
    [constructor|].
  apply Forall_app. split.
  - assert (H0 : Z.rem (i - 1) 2 = 0%Z).
    { apply Z.rem_divide; [lia|]. destruct (Zodd_ex i) as [q Hq].
      { now apply Zodd_bool_iff. }
      exists q. lia. }
    assert (H1 : Z.rem i 2 = 1%Z).
    { rewrite Z.rem_mod_nonneg by lia. rewrite Zmod_odd, Hodd. reflexivity. }
    unfold captionBlock, _getCreativeImageWithCaptionBlock,
      _getImageWithCaptionBlock, captionHoles.
    change (Z.of_nat (List.length imageSources)) with 2%Z.
    rewrite H0, H1.
    assert (E0 : element imageSources 0 = nth 0 imageSources [])
      by (vm_compute; reflexivity).
    assert (E1 : element imageSources 1 = nth 1 imageSources [])
      by (vm_compute; reflexivity).
    rewrite E0, E1.
    destruct (isCreative templateId);
      (constructor; [cbn [captionSources]; reflexivity | constructor]).
  - apply IH; [lia|]. rewrite Z.odd_add, Hodd. reflexivity.
Qed.

End CaptionSlots.

(** X24: under the with-caption layout a document with n image sections,
    none with an empty caption, shows 2n caption slots: the n captions in
    document order, each once, followed by n synthesized placeholders. *)
Theorem processContentSections_caption_slots :
  forall (sections : list Section) (templateId : option jsstring),
    Forall (fun c : jsstring => c <> [])
           (List.map content (filter isImageSection sections)) ->
    exists placeholders,
      captionSlots
        (_processContentSections sections double_image_with_caption templateId)
      = List.map content (filter isImageSection sections) ++ placeholders
      /\ List.length placeholders = List.length (filter isImageSection sections)
      /\ Forall (fun p => isPlaceholder p = true) placeholders.
Proof.
  intros sections templateId Hfull.
  rewrite <- captionSlots_filter, processContentSections_captionBlocks.
  destruct (captionBlocks_slots templateId
              (List.map content (filter isImageSection sections))
              (List.length (filter isImageSection sections)) []
              (List.map content (filter isImageSection sections)) 1
              eq_refl Hfull)
    as (ph & Hslots & Hlen & Hall); [rewrite length_map; lia|].
  exists ph. cbn [List.length Z.of_nat] in Hslots.
  split; [exact Hslots|]. split; [rewrite length_map in Hlen; lia | exact Hall].
Qed.

Lemma processContentSections_caption_slots_witness :
  Forall (fun c : jsstring => c <> [])
         (List.map content
            (filter isImageSection
               [mkSection type_image (js "图1 校门") 1;
                mkSection type_text (js "正文。") 2;
                mkSection type_image (js "图2 操场") 3;
                mkSection type_image (js "图3 食堂") 4]))
  /\ exists placeholders,
       captionSlots
         (_processContentSections
            [mkSection type_image (js "图1 校门") 1;
             mkSection type_text (js "正文。") 2;
             mkSection type_image (js "图2 操场") 3;
             mkSection type_image (js "图3 食堂") 4]
            double_image_with_caption (Some (js "education")))
       = [js "图1 校门"; js "图2 操场"; js "图3 食堂"] ++ placeholders
       /\ List.length placeholders = 3%nat.
Proof.
  assert (H : Forall (fun c : jsstring => c <> [])
                (List.map content
                   (filter isImageSection
                      [mkSection type_image (js "图1 校门") 1;
                       mkSection type_text (js "正文。") 2;
                       mkSection type_image (js "图2 操场") 3;
                       mkSection type_image (js "图3 食堂") 4])))
    by (repeat constructor; discriminate).
  split; [exact H|].
  destruct (processContentSections_caption_slots
              [mkSection type_image (js "图1 校门") 1;
               mkSection type_text (js "正文。") 2;
               mkSection type_image (js "图2 操场") 3;
               mkSection type_image (js "图3 食堂") 4]
              (Some (js "education")) H) as (ph & Hslots & Hlen & _).
  exists ph. split; [exact Hslots | exact Hlen].
Defined.

(** X25: the two image addresses never rotate: every caption block of the
    with-caption layout shows the first address of [imageSources] on the
    left and the second on the right, for the image index is odd at every
    block. *)
Theorem processContentSections_image_sources :
  forall (sections : list Section) (templateId : option jsstring),
    Forall (fun b => isCaptionBlock b = true ->
                     captionSources b
                     = Some (nth 0 imageSources [], nth 1 imageSources []))
           (_processContentSections sections double_image_with_caption templateId).
Proof.
  intros sections templateId.
  pose proof (captionBlocks_sources templateId
                (List.map content (filter isImageSection sections))
                (List.length (filter isImageSection sections)) 1 0
                eq_refl eq_refl) as Hall.
  rewrite <- processContentSections_captionBlocks in Hall.
  rewrite Forall_forall in Hall. apply Forall_forall. intros b Hin Hcap.
  apply Hall. apply filter_In. auto.
Qed.

(** ** What the renderer reads of a section *)

Section SameMarkup.

Lemma processSection_reads template templateId imageCaptions st (a b : Section) :
  type a = type b -> content a = content b ->
  processSection template templateId imageCaptions st a
  = processSection template templateId imageCaptions st b.
Proof.
  destruct a as [ta ca pa], b as [tb cb pb]. cbn. intros -> ->. reflexivity.
Qed.

Lemma fold_reads template templateId imageCaptions (s1 : list Section) :
  forall (s2 : list Section) st,
    List.map type s1 = List.map type s2 ->
    List.map content s1 = List.map content s2 ->
    fold_left (processSection template templateId imageCaptions) s1 st
    = fold_left (processSection template templateId imageCaptions) s2 st.
Proof.
  induction s1 as [|a s1 IH]; intros [|b s2] st Ht Hc; try discriminate;
    [reflexivity|].
  cbn in Ht, Hc. inversion Ht. inversion Hc. cbn [fold_left].
  rewrite (processSection_reads _ _ _ _ a b) by assumption. now apply IH.
Qed.

Lemma imageSections_reads (s1 : list Section) : forall s2 : list Section,
  List.map type s1 = List.map type s2 ->
  List.map content s1 = List.map content s2 ->
  List.map content (filter isImageSection s1)
  = List.map content (filter isImageSection s2).
Proof.
  induction s1 as [|a s1 IH]; intros [|b s2] Ht Hc; try discriminate;
    [reflexivity|].
  cbn in Ht, Hc. inversion Ht as [[Hta Ht']]. inversion Hc as [[Hca Hc']].
  assert (Himg : isImageSection a = isImageSection b)
    by (unfold isImageSection; now rewrite Hta).
  cbn [filter]. rewrite Himg.
  destruct (isImageSection b); cbn [List.map];
    rewrite ?Hca; now rewrite (IH s2).
Qed.

Lemma applyTemplate_reads repository (c1 c2 : ParsedContent) templateId :
  title c1 = title c2 ->
  List.map type (sections c1) = List.map type (sections c2) ->
  List.map content (sections c1) = List.map content (sections c2) ->
  applyTemplate repository c1 templateId = applyTemplate repository c2 templateId.
Proof.
  intros Htitle Ht Hc. unfold applyTemplate.
  pose proof (imageSections_reads _ _ Ht Hc) as Hcaps.
  assert (Hcount : List.length (filter isImageSection (sections c1))
                   = List.length (filter isImageSection (sections c2))).
  { rewrite <- (length_map content (filter isImageSection (sections c1))), Hcaps.
    apply length_map. }
  rewrite Hcount.
  destruct (callSelectTemplate _ _) as [layout|e]; [|reflexivity].
  f_equal. unfold _generateHTML, _processContentSections.
  now rewrite Htitle, Hcaps, (fold_reads _ _ _ _ _ _ Ht Hc).
Qed.

End SameMarkup.

(** X26: [applyTemplate] reads the title and, of each section, the type
    and the content only: two documents that agree on these give the same
    result, whatever their position fields say. *)
Theorem applyTemplate_ignores_positions :
  forall (repository : Repository) (c1 c2 : ParsedContent)
         (templateId : option jsstring),
    title c1 = title c2 ->
    List.map type (sections c1) = List.map type (sections c2) ->
    List.map content (sections c1) = List.map content (sections c2) ->
    applyTemplate repository c1 templateId = applyTemplate repository c2 templateId.
Proof. intros. now apply applyTemplate_reads. Qed.

Lemma applyTemplate_ignores_positions_witness :
  List.map type [mkSection type_image (js "图1 校门") 7]
    = List.map type [mkSection type_image (js "图1 校门") 1]
  /\ applyTemplate constructor
       (mkParsedContent (js "标题") [mkSection type_image (js "图1 校门") 7])
       (Some (js "business"))
     = applyTemplate constructor
         (mkParsedContent (js "标题") [mkSection type_image (js "图1 校门") 1])
         (Some (js "business")).
Proof.
  split; [reflexivity|].
  exact (applyTemplate_ignores_positions constructor
           (mkParsedContent (js "标题") [mkSection type_image (js "图1 校门") 7])
           (mkParsedContent (js "标题") [mkSection type_image (js "图1 校门") 1])
           (Some (js "business")) eq_refl eq_refl eq_refl).
Defined.

(** X27: the manual-content route answers 400 without content; with
    content it returns the content as [parseManualContent] marks it and
    the markup [applyTemplate] gives for the content as it came, and 500
    when [applyTemplate] throws: renumbering the sections changes nothing
    in the markup. *)
Theorem postManualContent_reply :
  forall (repository : Repository) (content : ParsedContent)
         (template : option jsstring),
    postManualContent repository None template = rendered400
    /\ postManualContent repository (Some content) template
       = match applyTemplate repository content template with
         | Ok htmlContent => rendered (parseManualContent content) htmlContent
         | Throw _ => rendered500
         end.
Proof.
  intros repository content template. split; [reflexivity|].
  unfold postManualContent. cbv zeta.
  rewrite (applyTemplate_reads repository
             (asParsedContent
                (mkManualContent (title content)
                   (markManual 0 (sections content))))
             content template).
  - reflexivity.
  - reflexivity.
  - unfold asParsedContent. cbn [sections m_sections]. rewrite map_map.
    cbn [asSection type]. apply (markManual_spec (sections content) 0).
  - unfold asParsedContent. cbn [sections m_sections]. rewrite map_map.
    cbn [asSection DocumentParser.content].
    apply (markManual_spec (sections content) 0).
Qed.

(** ** The routes that change or read the repository *)

Section RoutesMore.

Lemma builtIn_not_deleted templateId b :
  existsb (fun b => str_eqb (js b) templateId) builtInTemplates = false ->
  In b builtInTemplates ->
  str_eqb templateId (js b) = false.
Proof.
  intros Hnone Hin. destruct (str_eqb templateId (js b)) eqn:E; [|reflexivity].
  apply str_eqb_eq in E. subst templateId.
  assert (Hsome : existsb (fun b' => str_eqb (js b') (js b)) builtInTemplates = true).
  { apply existsb_exists. exists b. split; [exact Hin | apply str_eqb_refl]. }
  congruence.
Qed.

Lemma removeTemplate_keeps_other templateId key this :
  str_eqb templateId key = false ->
  registered this key = true ->
  registered (snd (removeTemplate templateId this)) key = true.
Proof.
  intros Hother Hreg. rewrite removeTemplate_unfold.
  destruct (negb (truthy templateId)); [exact Hreg|].
  destruct (negb (truthyValue _)); [exact Hreg|].
  destruct (_ <=? 1)%nat; [exact Hreg|].
  cbv zeta. cbn [snd]. unfold registered in *.
  destruct (defaultTemplate this) as [d|];
    [destruct (str_eqb d templateId)|];
    cbn [templates]; now rewrite getOwn_deleteOwn, Hother.
Qed.

Lemma addTemplate_keeps_registered t key v this :
  getOwn (templates this) key = Some v ->
  getOwn (templates (snd (addTemplate (Some t) this))) key = Some v
  /\ defaultTemplate (snd (addTemplate (Some t) this)) = defaultTemplate this.
Proof.
  intros Hown. rewrite addTemplate_unfold.
  destruct (_ || _); [auto|].
  destruct (truthyValue (getProp (templates this) (propertyKey (id t))))
    eqn:Hfalsy; [auto|].
  destruct (selectTemplate t) as [[|f]|]; auto.
  cbn [snd templates defaultTemplate]. split; [|reflexivity].
  rewrite getOwn_setOwn.
  destruct (str_eqb (propertyKey (id t)) key) eqn:E; [|exact Hown].
  apply str_eqb_eq in E. subst key.
  apply getProp_falsy in Hfalsy. destruct Hfalsy. congruence.
Qed.

End RoutesMore.

(** X28: the delete route never removes a built-in template: whatever id
    it is called with, it answers with a status, and a template registered
    under business, simple, education or creative is still registered
    afterwards. *)
Theorem deleteTemplate_keeps_built_ins :
  forall (this : Repository) (templateId : jsstring) (b : string),
    In b builtInTemplates ->
    registered this (js b) = true ->
    (exists reply, fst (deleteTemplate templateId this) = Ok reply)
    /\ registered (snd (deleteTemplate templateId this)) (js b) = true.
Proof.
  intros this templateId b Hin Hreg. unfold deleteTemplate, catch500.
  destruct (negb (truthy templateId)); [split; [eexists; reflexivity | exact Hreg]|].
  destruct (existsb _ builtInTemplates) eqn:Hbuiltin;
    [split; [eexists; reflexivity | exact Hreg]|].
  pose proof (removeTemplate_keeps_other templateId (js b) this
                (builtIn_not_deleted templateId b Hbuiltin Hin) Hreg) as Hkept.
  unfold bind, ret.
  destruct (removeTemplate templateId this) as [[[]|e] this'];
    cbn [fst snd] in *; split; eauto.
Qed.

Lemma deleteTemplate_keeps_built_ins_witness :
  In "education" builtInTemplates
  /\ registered constructor (js "education") = true
  /\ registered (snd (deleteTemplate (js "education") constructor)) (js "education")
     = true.
Proof.
  assert (Hin : In "education" builtInTemplates) by (cbn; auto).
  split; [exact Hin|]. split; [reflexivity|].
  exact (proj2 (deleteTemplate_keeps_built_ins constructor (js "education")
                  "education" Hin eq_refl)).
Defined.

(** X29: the create-custom route never replaces a registered template and
    never changes the default: whatever configuration it is given, it
    answers with a status, every template registered before is registered
    unchanged after, and the default id is the same. *)
Theorem postCreateCustom_keeps_registered :
  forall (this : Repository) (templateConfig : option TemplateConfig)
         (key : jsstring) (t : Template),
    getOwn (templates this) key = Some t ->
    (exists reply, fst (postCreateCustom templateConfig this) = Ok reply)
    /\ getOwn (templates (snd (postCreateCustom templateConfig this))) key = Some t
    /\ defaultTemplate (snd (postCreateCustom templateConfig this))
       = defaultTemplate this.
Proof.
  intros this templateConfig key t Hown. unfold postCreateCustom, catch500.
  destruct templateConfig as [config|];
    [|split; [eexists; reflexivity | auto]].
  unfold bind, ret.
  destruct (createCustomTemplate_cases config this)
    as [[e ->] | [newTemplate ->]]; [split; [eexists; reflexivity | auto]|].
  pose proof (addTemplate_keeps_registered newTemplate key t this Hown) as Hkept.
  destruct (addTemplate (Some newTemplate) this) as [[u|e] this'];
    cbn [fst snd] in *; split; eauto.
Qed.

Lemma postCreateCustom_keeps_registered_witness :
  getOwn (templates constructor) (js "business")
    = Some (snd (builtIn "business" "商务风格" "适用于商务类文章的模板风格"
                   _selectBusinessTemplate))
  /\ getOwn
       (templates
          (snd (postCreateCustom
                  (Some (mkTemplateConfig (Some (js "business")) (Some (js "新商务"))
                           None None (Some (mkImageRules (Some 1%Z) (Some 1%Z)))))
                  constructor)))
       (js "business")
     = Some (snd (builtIn "business" "商务风格" "适用于商务类文章的模板风格"
                    _selectBusinessTemplate)).
Proof.
  split; [reflexivity|].
  exact (proj1 (proj2 (postCreateCustom_keeps_registered constructor
           (Some (mkTemplateConfig (Some (js "business")) (Some (js "新商务"))
                    None None (Some (mkImageRules (Some 1%Z) (Some 1%Z)))))
           (js "business")
           (snd (builtIn "business" "商务风格" "适用于商务类文章的模板风格"
                   _selectBusinessTemplate))
           eq_refl))).
Defined.


